(** * Session-authentication backend: cookies, tokens and the three handlers

    A shallow embedding of [backend/src/index.ts] together with the
    properties of its cookie codec, its token service and its login /
    identify / logout handlers.

    JavaScript strings are sequences of UTF-16 code units; they are modelled
    as lists of [N] (each unit below 65536).  Exceptions are modelled by the
    [completion] type: [Throw e] is a thrown error. *)

From Stdlib Require Import NArith ZArith List String Ascii Lia Bool.
From stdpp Require Import base option list gmap pretty.

Set Default Proof Using "Type".
Set Warnings "-register-all".

(** ** JavaScript strings and exceptions *)

Abbreviation jsstring := (list N).

(** An ASCII literal of the source, as a sequence of code units. *)
Fixpoint js (s : string) : jsstring :=
  match s with
  | EmptyString => []
  | String a s' => N_of_ascii a :: js s'
  end.

Inductive JsError :=
| URIError                         (* thrown by encode/decodeURIComponent *)
| JsonWebTokenError (msg : string) (* thrown by the token library *)
| TokenExpiredError                (* thrown by the token library *)
| SystemError (msg : string)       (* store or hash-record fault *)
| TypeError (msg : string).        (* a property read on [undefined] *)

Inductive completion (A : Type) :=
| Ok (a : A)
| Throw (e : JsError).
Arguments Ok {A} a.
Arguments Throw {A} e.

Definition bind {A B} (r : completion A) (k : A -> completion B) : completion B :=
  match r with
  | Ok a => k a
  | Throw e => Throw e
  end.

Notation "'let*' x ':=' e 'in' k" := (bind e (fun x => k))
  (at level 10, x name, e at level 100, k at level 200).

Definition is_ok {A} (r : completion A) : bool :=
  match r with Ok _ => true | Throw _ => false end.

Definition code_unit (c : N) : Prop := (c < 65536)%N.

Module JS.
Local Open Scope N_scope.

(** *** String.prototype.split with a one-unit separator *)
Fixpoint String_split (sep : N) (s : jsstring) : list jsstring :=
  match s with
  | [] => [[]]
  | c :: s' =>
      if c =? sep then [] :: String_split sep s'
      else match String_split sep s' with
           | p :: ps => (c :: p) :: ps
           | [] => [[c]]
           end
  end.

(** *** Array.prototype.join *)
Fixpoint Array_join (sep : jsstring) (parts : list jsstring) : jsstring :=
  match parts with
  | [] => []
  | p :: ps =>
      match ps with
      | [] => p
      | _ :: _ => p ++ sep ++ Array_join sep ps
      end
  end.

(** *** String.prototype.trim: WhiteSpace and LineTerminator code units *)
Definition is_white_space (c : N) : bool :=
  (c =? 9) || (c =? 10) || (c =? 11) || (c =? 12) || (c =? 13) ||
  (c =? 32) || (c =? 160) || (c =? 5760) ||
  ((8192 <=? c) && (c <=? 8202)) ||
  (c =? 8232) || (c =? 8233) || (c =? 8239) || (c =? 8287) ||
  (c =? 12288) || (c =? 65279).

Fixpoint trimStart (s : jsstring) : jsstring :=
  match s with
  | [] => []
  | c :: s' => if is_white_space c then trimStart s' else s
  end.

Definition trimEnd (s : jsstring) : jsstring :=
  reverse (trimStart (reverse s)).

Definition String_trim (s : jsstring) : jsstring := trimEnd (trimStart s).

(** *** encodeURIComponent

    Units of the unescaped set are kept; every other code point is written
    as the [%XX] escapes of its UTF-8 octets.  A surrogate that is not part
    of a pair raises URIError. *)
Definition is_alpha (c : N) : bool :=
  ((65 <=? c) && (c <=? 90)) || ((97 <=? c) && (c <=? 122)).
Definition is_digit (c : N) : bool := (48 <=? c) && (c <=? 57).

(* - _ . ! ~ * ' ( ) *)
Definition is_mark (c : N) : bool :=
  (c =? 45) || (c =? 95) || (c =? 46) || (c =? 33) || (c =? 126) ||
  (c =? 42) || (c =? 39) || (c =? 40) || (c =? 41).

Definition unescaped (c : N) : bool := is_alpha c || is_digit c || is_mark c.

Definition is_lead_surrogate (c : N) : bool := (0xD800 <=? c) && (c <=? 0xDBFF).
Definition is_trail_surrogate (c : N) : bool := (0xDC00 <=? c) && (c <=? 0xDFFF).

Definition utf8 (cp : N) : list N :=
  if cp <? 0x80 then [cp]
  else if cp <? 0x800 then [0xC0 + cp / 64; 0x80 + cp mod 64]
  else if cp <? 0x10000 then
    [0xE0 + cp / 4096; 0x80 + (cp / 64) mod 64; 0x80 + cp mod 64]
  else
    [0xF0 + cp / 262144; 0x80 + (cp / 4096) mod 64;
     0x80 + (cp / 64) mod 64; 0x80 + cp mod 64].

Definition hex_digit (n : N) : N := if n <? 10 then 48 + n else 55 + n.

Definition percent (octets : list N) : jsstring :=
  flat_map (fun b => [37; hex_digit (b / 16); hex_digit (b mod 16)]) octets.

Fixpoint encodeURIComponent (s : jsstring) : completion jsstring :=
  match s with
  | [] => Ok []
  | c :: s' =>
      if unescaped c then
        let* r := encodeURIComponent s' in Ok (c :: r)
      else if is_lead_surrogate c then
        match s' with
        | d :: s'' =>
            if is_trail_surrogate d then
              let cp := (c - 0xD800) * 0x400 + (d - 0xDC00) + 0x10000 in
              let* r := encodeURIComponent s'' in Ok (percent (utf8 cp) ++ r)
            else Throw URIError
        | [] => Throw URIError
        end
      else if is_trail_surrogate c then Throw URIError
      else let* r := encodeURIComponent s' in Ok (percent (utf8 c) ++ r)
  end.

(** *** decodeURIComponent

    First every [%XX] escape is read as an octet (URIError when the two
    units after [%] are not hexadecimal digits); then the octets are read as
    UTF-8 (URIError on a stray continuation octet, a truncated sequence, an
    overlong form, a surrogate or a value above 0x10FFFF) and written back
    as UTF-16. *)
Definition hex_value (c : N) : option N :=
  if (48 <=? c) && (c <=? 57) then Some (c - 48)
  else if (65 <=? c) && (c <=? 70) then Some (c - 55)
  else if (97 <=? c) && (c <=? 102) then Some (c - 87)
  else None.

Inductive uri_item :=
| Literal (c : N)
| Octet (b : N).

Fixpoint unescape (s : jsstring) : completion (list uri_item) :=
  match s with
  | [] => Ok []
  | c :: s' =>
      if c =? 37 then
        match s' with
        | h :: l :: s'' =>
            match hex_value h, hex_value l with
            | Some x, Some y =>
                let* items := unescape s'' in Ok (Octet (16 * x + y) :: items)
            | _, _ => Throw URIError
            end
        | _ => Throw URIError
        end
      else let* items := unescape s' in Ok (Literal c :: items)
  end.

Definition is_continuation (b : N) : bool := (0x80 <=? b) && (b <? 0xC0).

Definition scalar_from (lo cp : N) : bool :=
  (lo <=? cp) && (cp <=? 0x10FFFF) && negb ((0xD800 <=? cp) && (cp <=? 0xDFFF)).

Definition utf16 (cp : N) : jsstring :=
  if cp <? 0x10000 then [cp]
  else [0xD800 + (cp - 0x10000) / 0x400; 0xDC00 + (cp - 0x10000) mod 0x400].

Fixpoint assemble (items : list uri_item) : completion jsstring :=
  match items with
  | [] => Ok []
  | Literal c :: r => let* t := assemble r in Ok (c :: t)
  | Octet b :: r =>
      if b <? 0x80 then let* t := assemble r in Ok (b :: t)
      else if b <? 0xC0 then Throw URIError
      else if b <? 0xE0 then
        match r with
        | Octet b1 :: r1 =>
            let cp := (b - 0xC0) * 64 + (b1 - 0x80) in
            if is_continuation b1 && scalar_from 0x80 cp
            then let* t := assemble r1 in Ok (utf16 cp ++ t)
            else Throw URIError
        | _ => Throw URIError
        end
      else if b <? 0xF0 then
        match r with
        | Octet b1 :: Octet b2 :: r2 =>
            let cp := (b - 0xE0) * 4096 + (b1 - 0x80) * 64 + (b2 - 0x80) in
            if is_continuation b1 && is_continuation b2 && scalar_from 0x800 cp
            then let* t := assemble r2 in Ok (utf16 cp ++ t)
            else Throw URIError
        | _ => Throw URIError
        end
      else if b <? 0xF8 then
        match r with
        | Octet b1 :: Octet b2 :: Octet b3 :: r3 =>
            let cp := (b - 0xF0) * 262144 + (b1 - 0x80) * 4096
                      + (b2 - 0x80) * 64 + (b3 - 0x80) in
            if is_continuation b1 && is_continuation b2 && is_continuation b3
               && scalar_from 0x10000 cp
            then let* t := assemble r3 in Ok (utf16 cp ++ t)
            else Throw URIError
        | _ => Throw URIError
        end
      else Throw URIError
  end.

Definition decodeURIComponent (s : jsstring) : completion jsstring :=
  let* items := unescape s in assemble items.

(** *** String.prototype.isWellFormed: no surrogate outside a pair *)
Fixpoint isWellFormed (s : jsstring) : bool :=
  match s with
  | [] => true
  | c :: s' =>
      if is_lead_surrogate c then
        match s' with
        | d :: s'' => is_trail_surrogate d && isWellFormed s''
        | [] => false
        end
      else negb (is_trail_surrogate c) && isWellFormed s'
  end.

(** Unicode scalar values, and the units [encodeURIComponent] can write. *)
Definition scalar (cp : N) : Prop :=
  cp <= 0x10FFFF /\ ~ (0xD800 <= cp <= 0xDFFF).

Definition uri_unit (c : N) : Prop := unescaped c = true \/ c = 37.

End JS.
Export JS.

(** ** Cookie codec (index.ts, lines 34-54) *)

Definition AUTH_COOKIE : jsstring := js "auth_token".

(* "1d": one day, in seconds *)
Definition JWT_EXPIRES_IN : Z := 86400.

Definition buildCookie (name value : jsstring) (options : list jsstring)
  : completion jsstring :=
  let* encodedValue := encodeURIComponent value in
  Ok (Array_join (js "; ") ((name ++ js "=" ++ encodedValue) :: options)).

(** [result[rawKey] = v] on a plain object: the key [__proto__] reaches the
    setter of [Object.prototype], which ignores a string; no own property
    is created. *)
Definition assign (result : gmap jsstring jsstring) (rawKey v : jsstring)
  : gmap jsstring jsstring :=
  if decide (rawKey = js "__proto__") then result else <[rawKey := v]> result.

(** The name of a [;]-separated part, as the loop body reads it. *)
Definition cookie_key (part : jsstring) : jsstring :=
  hd [] (String_split 61 (String_trim part)).

(** The still encoded value of a part: what follows the first [=]. *)
Definition cookie_raw_value (part : jsstring) : jsstring :=
  Array_join (js "=") (tl (String_split 61 (String_trim part))).

(** One iteration of the [for (const part of parts)] loop. *)
Definition parseCookies_step (result : gmap jsstring jsstring) (part : jsstring)
  : completion (gmap jsstring jsstring) :=
  let rawKey := cookie_key part in
  if decide (rawKey = []) then Ok result
  else
    let* v := decodeURIComponent (cookie_raw_value part) in
    Ok (assign result rawKey v).

Fixpoint parseCookies_loop (result : gmap jsstring jsstring)
    (parts : list jsstring) : completion (gmap jsstring jsstring) :=
  match parts with
  | [] => Ok result
  | part :: rest =>
      let* result' := parseCookies_step result part in
      parseCookies_loop result' rest
  end.

Definition parseCookies (cookieHeader : option jsstring)
  : completion (gmap jsstring jsstring) :=
  match cookieHeader with
  | None => Ok ∅
  | Some [] => Ok ∅
  | Some h => parseCookies_loop ∅ (String_split 59 h)
  end.

(** A part the loop can process: it is skipped, or its value decodes. *)
Definition part_decodable (p : jsstring) : bool :=
  bool_decide (cookie_key p = [])
  || is_ok (decodeURIComponent (cookie_raw_value p)).

(** A part that neither names [name] nor stops the loop. *)
Definition part_compatible (name part : jsstring) : bool :=
  negb (bool_decide (cookie_key part = name)) && part_decodable part.

(** Attribute strings none of whose [;]-separated parts names [name] or
    carries a malformed escape. *)
Definition attributes_compatible (name : jsstring) (options : list jsstring)
  : bool :=
  forallb (fun o => forallb (part_compatible name) (String_split 59 o)) options.

(** A name the loop reads back unchanged: not empty, not starting with white
    space, free of [;] and [=], and not [__proto__]. *)
Definition cookie_name_ok (name : jsstring) : bool :=
  match name with
  | [] => false
  | c :: _ => negb (is_white_space c)
  end
  && forallb (fun c => negb (c =? 59)%N && negb (c =? 61)%N) name
  && negb (bool_decide (name = js "__proto__")).

(** ** Configuration (index.ts, lines 17-28) *)

Record ProcessEnv := {
  env_DATABASE_URL : option jsstring;
  env_JWT_SECRET : option jsstring;
  env_NODE_ENV : option jsstring;
  env_FRONTEND_ORIGIN : option jsstring
}.

Record Config := {
  DATABASE_URL : jsstring;
  JWT_SECRET : jsstring;
  NODE_ENV : jsstring;
  FRONTEND_ORIGIN : jsstring
}.

(** [!x] on a [string | undefined]. *)
Definition falsy (x : option jsstring) : bool :=
  match x with
  | None => true
  | Some [] => true
  | Some (_ :: _) => false
  end.

Definition startup (e : ProcessEnv) : completion Config :=
  if falsy (env_DATABASE_URL e) then Throw (SystemError "DATABASE_URL is required")
  else if falsy (env_JWT_SECRET e) then Throw (SystemError "JWT_SECRET is required")
  else Ok {| DATABASE_URL := default [] (env_DATABASE_URL e);
             JWT_SECRET := default [] (env_JWT_SECRET e);
             NODE_ENV := default (js "development") (env_NODE_ENV e);
             FRONTEND_ORIGIN :=
               default (js "http://localhost:5173") (env_FRONTEND_ORIGIN e) |}.

(** ** Cookie attributes (index.ts, lines 71-89) *)

Definition cookieOptions (cfg : Config) : list jsstring :=
  let options :=
    [js "HttpOnly"; js "Path=/"; js "SameSite=Lax"; js "Max-Age=86400"] in
  if decide (NODE_ENV cfg = js "production") then options ++ [js "Secure"]
  else options.

Definition clearCookieOptions (cfg : Config) : list jsstring :=
  let options :=
    [js "HttpOnly"; js "Path=/"; js "SameSite=Lax"; js "Max-Age=0"] in
  if decide (NODE_ENV cfg = js "production") then options ++ [js "Secure"]
  else options.

(** ** Token service

    [signToken] and [verifyToken] (index.ts, lines 56-69) call the
    [jsonwebtoken] package, which is not part of the repository. *)

Record JwtPayload := {
  payload_sub : jsstring;
  payload_username : jsstring;
  payload_name : option jsstring
}.

(** Session claims, as section 3 of the specification lists them. *)
Record Claims := {
  claim_sub : jsstring;
  claim_username : jsstring;
  claim_name : option jsstring;
  claim_iat : Z;
  claim_exp : Z;
  claim_iss : jsstring;
  claim_aud : jsstring
}.

(** The primitives under the token library: the encoded header segment and
    its check, the serialisation of the claims into a segment and back
    ([None]: the segment does not decode), and the keyed signature of a
    signing input, already encoded as a segment. *)
Record TokenCodec := {
  jose_header : jsstring;
  header_ok : jsstring -> bool;
  encode_claims : Claims -> jsstring;
  decode_claims : jsstring -> option Claims;
  mac : jsstring -> jsstring -> jsstring
}.

Record SignOptions := {
  expiresIn : Z;
  sign_issuer : jsstring;
  sign_audience : jsstring
}.

Record VerifyOptions := {
  issuer : jsstring;
  audience : jsstring
}.

(** Modelled from the spec: the body of [jwt.sign] is missing from the
    sources.  Section 4.3: the claims are serialised and signed with the
    server-held secret into a compact token; issuer and audience are stamped
    in; expiration is now plus the session duration. *)
Definition jwt_sign (tc : TokenCodec) (now : Z) (payload : JwtPayload)
    (secret : jsstring) (o : SignOptions) : jsstring :=
  let claims := {| claim_sub := payload_sub payload;
                   claim_username := payload_username payload;
                   claim_name := payload_name payload;
                   claim_iat := now;
                   claim_exp := now + expiresIn o;
                   claim_iss := sign_issuer o;
                   claim_aud := sign_audience o |} in
  let input := jose_header tc ++ js "." ++ encode_claims tc claims in
  input ++ js "." ++ mac tc secret input.

(** Modelled from the spec: the body of [jwt.verify] is missing from the
    sources.  Section 4.3: decode, check the signature, check
    issuer = expected, audience = expected, expires_at > now; all checks must
    pass and the first failing one rejects.  Rejection is a thrown error. *)
Definition jwt_verify (tc : TokenCodec) (now : Z) (token secret : jsstring)
    (o : VerifyOptions) : completion Claims :=
  match String_split 46 token with
  | [h; p; s] =>
      if negb (header_ok tc h) then Throw (JsonWebTokenError "invalid token")
      else
        match decode_claims tc p with
        | None => Throw (JsonWebTokenError "invalid token")
        | Some c =>
            if decide (s = []) then
              Throw (JsonWebTokenError "jwt signature is required")
            else if negb (bool_decide (s = mac tc secret (h ++ js "." ++ p))) then
              Throw (JsonWebTokenError "invalid signature")
            else if negb (bool_decide (claim_iss c = issuer o)) then
              Throw (JsonWebTokenError "jwt issuer invalid")
            else if negb (bool_decide (claim_aud c = audience o)) then
              Throw (JsonWebTokenError "jwt audience invalid")
            else if (claim_exp c <=? now)%Z then Throw TokenExpiredError
            else Ok c
        end
  | _ => Throw (JsonWebTokenError "jwt malformed")
  end.

(** Modelled from the spec: the decoding step of [jwt.verify] (section 4.3,
    "decodes"), missing from the sources: the claims a token carries, when
    it has three segments and its header and payload decode. *)
Definition jwt_decode (tc : TokenCodec) (token : jsstring) : option Claims :=
  match String_split 46 token with
  | [h; p; s] => if header_ok tc h then decode_claims tc p else None
  | _ => None
  end.

(** Segments are written in the base64url alphabet. *)
Definition base64url_unit (c : N) : bool :=
  is_alpha c || is_digit c || (c =? 45)%N || (c =? 95)%N.

(** What is assumed of the primitives: the library accepts its own header,
    reads back the claims it wrote, and writes base64url segments. *)
Record CodecLaws (tc : TokenCodec) : Prop := {
  header_accepted : header_ok tc (jose_header tc) = true;
  claims_roundtrip : forall c, decode_claims tc (encode_claims tc c) = Some c;
  header_units : forallb base64url_unit (jose_header tc) = true;
  claims_units : forall c, forallb base64url_unit (encode_claims tc c) = true;
  mac_units : forall k i, forallb base64url_unit (mac tc k i) = true;
  mac_nonempty : forall k i, mac tc k i <> []
}.

(** ** Credential verifier

    The handler calls [argon2.verify(user.password_hash, password)]; the
    package is not part of the repository. *)

(** What the verifier makes of a stored hash string. *)
Inductive HashReading :=
| Corrupt                            (* not a hash record at all *)
| Malformed                          (* a record the scheme cannot use *)
| Hashed (params digest : jsstring). (* parameters (with the salt), digest *)

(** The primitives under the verifier: reading a stored hash string, and
    hashing a password under given parameters. *)
Record PasswordHasher := {
  parse_hash : jsstring -> HashReading;
  hash_password : jsstring -> jsstring -> jsstring
}.

(** Modelled from the spec: the body of [argon2.verify] is missing from the
    sources.  Section 4.2: the password is run through the algorithm that
    produced the stored hash and the digests are compared; false on any
    mismatch or malformed hash, never a throw for ordinary invalid input;
    only a missing or corrupt hash record propagates as a system error. *)
Definition argon2_verify (ph : PasswordHasher) (stored_hash : option jsstring)
    (password : jsstring) : completion bool :=
  match stored_hash with
  | None => Throw (SystemError "missing hash record")
  | Some h =>
      match parse_hash ph h with
      | Corrupt => Throw (SystemError "corrupt hash record")
      | Malformed => Ok false
      | Hashed params digest =>
          Ok (bool_decide (hash_password ph params password = digest))
      end
  end.

(** ** JSON bodies and the credential store *)

Inductive Json :=
| JNull
| JBool (b : bool)
| JNum (z : Z)
| JStr (s : jsstring)
| JObj (fields : list (string * Json)).

(** The numbers in the bodies are integers: [JNum z] stands for the Number
    value nearest to [z], which is [z] itself up to 2^53.

    [nearest_double a], for [0 <= a]: 53 significant bits, ties to even. *)
Definition nearest_double (a : Z) : Z :=
  let sh := (Z.log2 a - 52)%Z in
  if (sh <=? 0)%Z then a
  else
    let q := Z.shiftr a sh in
    let r := (a - Z.shiftl q sh)%Z in
    let half := Z.shiftl 1 (sh - 1) in
    let q' := if (half <? r)%Z || ((r =? half)%Z && Z.odd q)
              then (q + 1)%Z else q in
    Z.shiftl q' sh.

(** The digits [s] and the count [j] of zeros after them of the shortest
    decimal [s * 10^j] that reads back as the Number [x]; of two decimals of
    that length the one closer to [x], and the even [s] on a tie.  Tried from
    [j] zeros downwards. *)
Fixpoint shortest (x : Z) (j : nat) : Z * Z :=
  let u := (10 ^ Z.of_nat j)%Z in
  let lo := (x / u)%Z in
  let hi := (lo + 1)%Z in
  let lo_ok := (0 <? lo)%Z && (nearest_double (lo * u) =? x)%Z in
  let hi_ok := (nearest_double (hi * u) =? x)%Z in
  let s :=
    if lo_ok && hi_ok then
      match (x - lo * u ?= hi * u - x)%Z with
      | Lt => lo
      | Gt => hi
      | Eq => if Z.even lo then lo else hi
      end
    else if lo_ok then lo else hi in
  match j with
  | O => (x, 0%Z)
  | S j' => if lo_ok || hi_ok then (s, Z.of_nat j) else shortest x j'
  end.

Definition decimal (z : Z) : jsstring := js (pretty z).

(** [Number::toString] in radix 10 on an integer: the shortest digits, in
    positional form up to 21 places and in exponent form beyond. *)
Definition Number_toString (z : Z) : jsstring :=
  let x := nearest_double (Z.abs z) in
  let sign := if (z <? 0)%Z then js "-" else [] in
  if (2 ^ 1024 <=? x)%Z then sign ++ js "Infinity"
  else
    let '(s, j) := shortest x (length (decimal x)) in
    let n := (Z.of_nat (length (decimal s)) + j)%Z in
    if (n <=? 21)%Z then sign ++ decimal (s * 10 ^ j)
    else
      match decimal s with
      | [] => []
      | d :: ds =>
          sign ++ d :: (if decide (ds = []) then [] else js "." ++ ds)
          ++ js "e+" ++ decimal (n - 1)
      end.

(** [String(v)] *)
Definition String_of (v : Json) : jsstring :=
  match v with
  | JNull => js "null"
  | JBool true => js "true"
  | JBool false => js "false"
  | JNum z => Number_toString z
  | JStr s => s
  | JObj _ => js "[object Object]"
  end.

(** A row of [users]: [id] as the driver returns it (a number or a
    string), [name] nullable. *)
Record UserRow := {
  row_id : Json;
  row_username : jsstring;
  row_password_hash : option jsstring;
  row_name : option jsstring
}.

Record Store := {
  rows : list UserRow;
  reachable : bool
}.

(** [SELECT id, username, password_hash, name FROM users
     WHERE username = $1 LIMIT 1] *)
Definition pool_query (db : Store) (username : jsstring)
  : completion (list UserRow) :=
  if reachable db then
    Ok (take 1 (filter (fun r => row_username r = username) (rows db)))
  else Throw (SystemError "store unreachable").

(** ** Handlers

    A handler runs against the [set] object of the request (status and
    headers) and may throw.  The calls it makes to the store, the verifier
    and the token library are recorded in order. *)

Inductive Call :=
| QueryUser (username : jsstring)
| VerifyPassword (stored_hash : option jsstring) (password : jsstring)
| SignToken (payload : JwtPayload)
| VerifyToken (token : jsstring).

Record Context := {
  status : Z;
  headers : gmap string jsstring;
  calls : list Call
}.

Definition Handler (A : Type) : Type := Context -> Context * completion A.

Definition ret {A} (a : A) : Handler A := fun ctx => (ctx, Ok a).

Definition hbind {A B} (h : Handler A) (k : A -> Handler B) : Handler B :=
  fun ctx =>
    match h ctx with
    | (ctx', Ok a) => k a ctx'
    | (ctx', Throw e) => (ctx', Throw e)
    end.

Notation "'let!' x ':=' h 'in' k" := (hbind h (fun x => k))
  (at level 10, x name, h at level 99, k at level 200).
Notation "h ;;; k" := (hbind h (fun _ => k))
  (at level 100, right associativity).

Definition lift {A} (r : completion A) : Handler A := fun ctx => (ctx, r).

Definition call {A} (c : Call) (r : completion A) : Handler A :=
  fun ctx =>
    ({| status := status ctx; headers := headers ctx;
        calls := calls ctx ++ [c] |}, r).

Definition set_status (s : Z) : Handler unit :=
  fun ctx =>
    ({| status := s; headers := headers ctx; calls := calls ctx |}, Ok tt).

Definition set_header (k : string) (v : jsstring) : Handler unit :=
  fun ctx =>
    ({| status := status ctx; headers := <[k := v]> (headers ctx);
        calls := calls ctx |}, Ok tt).

(** [try { h } catch { k }] *)
Definition try_catch {A} (h k : Handler A) : Handler A :=
  fun ctx =>
    match h ctx with
    | (ctx', Ok a) => (ctx', Ok a)
    | (ctx', Throw _) => k ctx'
    end.

Record LoginBody := {
  username : option jsstring;
  password : option jsstring
}.

Definition error_body (msg : string) : Json := JObj [("error", JStr (js msg))].

Definition nullable (x : option jsstring) : Json :=
  match x with
  | Some s => JStr s
  | None => JNull
  end.

Definition user_body (id : Json) (uname : jsstring) (name : option jsstring)
  : Json :=
  JObj [("user", JObj [("id", id); ("username", JStr uname);
                       ("name", nullable name)])].

Section Service.
Variable tc : TokenCodec.
Variable ph : PasswordHasher.
Variable cfg : Config.

(* index.ts, lines 56-62 *)
Definition signToken (now : Z) (payload : JwtPayload) : jsstring :=
  jwt_sign tc now payload (JWT_SECRET cfg)
    {| expiresIn := JWT_EXPIRES_IN;
       sign_issuer := js "web_test";
       sign_audience := js "web_test_frontend" |}.

(* index.ts, lines 64-69 *)
Definition verifyToken (now : Z) (token : jsstring) : completion Claims :=
  jwt_verify tc now token (JWT_SECRET cfg)
    {| issuer := js "web_test"; audience := js "web_test_frontend" |}.

(* POST /api/login, index.ts lines 109-154 *)
Definition login (db : Store) (now : Z) (body : option LoginBody)
  : Handler Json :=
  let b := default {| username := None; password := None |} body in
  if falsy (username b) || falsy (password b) then
    set_status 400 ;;;
    ret (error_body "Username and password are required")
  else
    let uname := default [] (username b) in
    let pw := default [] (password b) in
    let! result := call (QueryUser uname) (pool_query db uname) in
    match head result with
    | None =>
        set_status 401 ;;;
        ret (error_body "Invalid username or password")
    | Some user =>
        let! isValid := call (VerifyPassword (row_password_hash user) pw)
                      (argon2_verify ph (row_password_hash user) pw) in
        if negb isValid then
          set_status 401 ;;;
          ret (error_body "Invalid username or password")
        else
          let payload := {| payload_sub := String_of (row_id user);
                            payload_username := row_username user;
                            payload_name := row_name user |} in
          let! token := call (SignToken payload) (Ok (signToken now payload)) in
          let! cookie := lift (buildCookie AUTH_COOKIE token (cookieOptions cfg)) in
          set_header "Set-Cookie" cookie ;;;
          ret (user_body (row_id user) (row_username user) (row_name user))
    end.

(* GET /api/me, index.ts lines 155-177 *)
Definition me (now : Z) (cookie : option jsstring) : Handler Json :=
  let! cookies := lift (parseCookies cookie) in
  let token := cookies !! AUTH_COOKIE in
  if falsy token then
    set_status 401 ;;;
    ret (error_body "Missing session cookie")
  else
    let t := default [] token in
    try_catch
      (let! payload := call (VerifyToken t) (verifyToken now t) in
       ret (user_body (JStr (claim_sub payload)) (claim_username payload)
              (claim_name payload)))
      (set_status 401 ;;;
       ret (error_body "Invalid or expired session")).

(* POST /api/logout, index.ts lines 178-185 *)
Definition logout : Handler Json :=
  let! cookie := lift (buildCookie AUTH_COOKIE [] (clearCookieOptions cfg)) in
  set_header "Set-Cookie" cookie ;;;
  ret (JObj [("success", JBool true)]).
End Service.

(** The claims [signToken] stamps at time [now]. *)
Definition issued_claims (now : Z) (payload : JwtPayload) : Claims :=
  {| claim_sub := payload_sub payload;
     claim_username := payload_username payload;
     claim_name := payload_name payload;
     claim_iat := now;
     claim_exp := now + JWT_EXPIRES_IN;
     claim_iss := js "web_test";
     claim_aud := js "web_test_frontend" |}.

(** The payload the login handler signs for a row. *)
Definition payload_of (row : UserRow) : JwtPayload :=
  {| payload_sub := String_of (row_id row);
     payload_username := row_username row;
     payload_name := row_name row |}.

(** A login body with both fields present. *)
Definition request (u p : jsstring) : option LoginBody :=
  Some {| username := Some u; password := Some p |}.

(** Every element is a code unit: the list represents a JavaScript string. *)
Definition code_units (s : jsstring) : bool :=
  forallb (fun c => c <? 65536)%N s.

(** What the caller sees: the reply built from [set] and the returned body,
    or the framework's answer to an uncaught error. *)
Inductive Response :=
| Reply (st : Z) (hs : gmap string jsstring) (body : Json)
| Fault (e : JsError).

Definition initial : Context := {| status := 200; headers := ∅; calls := [] |}.

Definition serve (h : Handler Json) : Response * list Call :=
  match h initial with
  | (ctx, Ok body) => (Reply (status ctx) (headers ctx) body, calls ctx)
  | (ctx, Throw e) => (Fault e, calls ctx)
  end.

Definition set_cookie (r : Response) : option jsstring :=
  match r with
  | Reply _ hs _ => hs !! "Set-Cookie"
  | Fault _ => None
  end.

(** The [Cookie] header a client sends back for a received [Set-Cookie]
    header: its leading [name=value] pair, without the attributes. *)
Definition cookie_pair (header : jsstring) : jsstring :=
  hd [] (String_split 59 header).

(** The attributes of a [Set-Cookie] header: the parts after the pair. *)
Definition cookie_attributes (header : jsstring) : list jsstring :=
  map String_trim (tl (String_split 59 header)).

(** ** A reference instance of the primitives

    A small executable codec and hasher over the letters [I O H Z P M n s _],
    used to run the handlers on concrete requests. *)
Module Reference.
Local Open Scope N_scope.

(* binary digits, least significant first: I = 73, O = 79, H = 72 ends *)
Fixpoint enc_pos (p : positive) : jsstring :=
  match p with
  | xI q => 73 :: enc_pos q
  | xO q => 79 :: enc_pos q
  | xH => [72]
  end.

(* Z = 90 is zero *)
Definition enc_N (n : N) : jsstring :=
  match n with
  | N0 => [90]
  | Npos p => enc_pos p
  end.

(* a string is closed by _ = 95 *)
Definition enc_str (s : jsstring) : jsstring := flat_map enc_N s ++ [95].

(* n = 110 for an absent string, s = 115 before a present one *)
Definition enc_opt (o : option jsstring) : jsstring :=
  match o with
  | None => [110]
  | Some s => 115 :: enc_str s
  end.

(* M = 77 for a negative number, P = 80 otherwise *)
Definition enc_Z (z : Z) : jsstring :=
  (if (z <? 0)%Z then 77 else 80) :: enc_N (Z.abs_N z) ++ [95].

Definition enc_claims (c : Claims) : jsstring :=
  enc_str (claim_sub c) ++ enc_str (claim_username c)
  ++ enc_opt (claim_name c) ++ enc_Z (claim_iat c) ++ enc_Z (claim_exp c)
  ++ enc_str (claim_iss c) ++ enc_str (claim_aud c).

Fixpoint dec_str (k : positive -> positive) (s : jsstring)
  : option (jsstring * jsstring) :=
  match s with
  | [] => None
  | c :: r =>
      if c =? 73 then dec_str (fun p => k (xI p)) r
      else if c =? 79 then dec_str (fun p => k (xO p)) r
      else if c =? 72 then
        '(t, r') ← dec_str id r; Some (Npos (k xH) :: t, r')
      else if c =? 90 then
        '(t, r') ← dec_str id r; Some (N0 :: t, r')
      else if c =? 95 then Some ([], r)
      else None
  end.

Definition dec_opt (s : jsstring) : option (option jsstring * jsstring) :=
  match s with
  | c :: r =>
      if c =? 110 then Some (None, r)
      else if c =? 115 then '(t, r') ← dec_str id r; Some (Some t, r')
      else None
  | [] => None
  end.

Definition dec_Z (s : jsstring) : option (Z * jsstring) :=
  match s with
  | c :: r =>
      '(t, r') ← dec_str id r;
      match t with
      | [n] =>
          if c =? 77 then Some (- Z.of_N n, r')%Z
          else if c =? 80 then Some (Z.of_N n, r')
          else None
      | _ => None
      end
  | [] => None
  end.

Definition dec_claims (s : jsstring) : option Claims :=
  '(sub, r) ← dec_str id s;
  '(uname, r) ← dec_str id r;
  '(name, r) ← dec_opt r;
  '(iat, r) ← dec_Z r;
  '(exp, r) ← dec_Z r;
  '(iss, r) ← dec_str id r;
  '(aud, r) ← dec_str id r;
  match r with
  | [] => Some {| claim_sub := sub; claim_username := uname;
                  claim_name := name; claim_iat := iat; claim_exp := exp;
                  claim_iss := iss; claim_aud := aud |}
  | _ :: _ => None
  end.

Definition header : jsstring := js "eyJhbGciOiJIUzI1NiIsInR5cCI6IkpXVCJ9".

Definition codec : TokenCodec :=
  {| jose_header := header;
     header_ok := fun h => bool_decide (h = header);
     encode_claims := enc_claims;
     decode_claims := dec_claims;
     mac := fun secret input => enc_str (secret ++ 0 :: input) |}.

(* a stored hash reads $id$params$digest; a string of another shape is no
   hash record, and an id other than argon2id is of no use to the scheme *)
Definition hasher : PasswordHasher :=
  {| parse_hash := fun h =>
       match String_split 36 h with
       | [[]; id; params; digest] =>
           if decide (id = js "argon2id") then Hashed params digest
           else Malformed
       | _ => Corrupt
       end;
     hash_password := fun params pw => enc_str (params ++ 0 :: pw) |}.

Definition stored (params pw : jsstring) : jsstring :=
  js "$argon2id$" ++ params ++ js "$" ++ hash_password hasher params pw.

Definition development : Config :=
  {| DATABASE_URL := js "postgres://localhost/web_test";
     JWT_SECRET := js "s3cret";
     NODE_ENV := js "development";
     FRONTEND_ORIGIN := js "http://localhost:5173" |}.

Definition production : Config :=
  {| DATABASE_URL := js "postgres://localhost/web_test";
     JWT_SECRET := js "s3cret";
     NODE_ENV := js "production";
     FRONTEND_ORIGIN := js "https://example.org" |}.

Definition alice : UserRow :=
  {| row_id := JNum 1;
     row_username := js "alice";
     row_password_hash := Some (stored (js "salt") (js "correct-pw"));
     row_name := None |}.

Definition db : Store := {| rows := [alice]; reachable := true |}.

Definition credentials (u p : string) : option LoginBody :=
  Some {| username := Some (js u); password := Some (js p) |}.
End Reference.

(** Strings made of white space only. *)
Definition blank (s : jsstring) : bool := forallb is_white_space s.

(** ** The request hook (index.ts, lines 92-102)

    The hook destructures [headers] and [set] from the context object it is
    called with.  [hdrs] is what the destructuring gives for [headers]:
    [None] when the context has no such property, in which case reading
    [headers.origin] throws; the keys of a header object are lower-case
    names.  The hook returns nothing. *)

Definition onRequest (cfg : Config) (hdrs : option (gmap string jsstring))
  : Handler unit :=
  match hdrs with
  | None =>
      lift (Throw (TypeError "Cannot read properties of undefined"))
  | Some hs =>
      let origin := hs !! "origin" in
      (if decide (origin = Some (FRONTEND_ORIGIN cfg)) then
         set_header "Access-Control-Allow-Origin" (default [] origin) ;;;
         set_header "Access-Control-Allow-Credentials" (js "true")
       else ret tt) ;;;
      set_header "Access-Control-Allow-Methods"
        (js "GET,POST,PUT,PATCH,DELETE,OPTIONS") ;;;
      set_header "Access-Control-Allow-Headers"
        (js "Content-Type, Authorization")
  end.

(** ** The page script (index.ts, lines 191-322)

    The component's variables are a record; [fetchMe], [login] and [logout]
    are run to completion against a network that answers each request. *)
Module Page.

Definition LOGIN_PATH : jsstring := js "/api/login".
Definition ME_PATH : jsstring := js "/api/me".
Definition LOGOUT_PATH : jsstring := js "/api/logout".

(** A thrown value: an [Error] with its message, or anything else. *)
Inductive Thrown :=
| ErrorObject (message : jsstring)
| OtherValue.

(** What [res.json()] gives: the parsed value, or a thrown SyntaxError. *)
Inductive Parsed :=
| Parses (data : Json)
| SyntaxError (message : jsstring).

Record FetchResponse := {
  res_status : Z;
  res_json : Parsed
}.

Inductive Fetched :=
| Rejects (err : Thrown)
| Resolves (res : FetchResponse).

Record FetchRequest := {
  url : jsstring;
  method : jsstring;
  credentials : jsstring;
  content_type : option jsstring;
  body : option Json        (* the value given to JSON.stringify *)
}.

Definition Network : Type := FetchRequest -> Fetched.

(* res.ok *)
Definition ok (res : FetchResponse) : bool :=
  (200 <=? res_status res)%Z && (res_status res <=? 299)%Z.

Record State := {
  username : jsstring;
  password : jsstring;
  loading : bool;
  checkingSession : bool;
  isAuthenticated : bool;
  me : Json;                 (* JNull is null *)
  statusCode : option Z;
  error : jsstring;
  success : jsstring
}.

Definition initial : State :=
  {| username := []; password := []; loading := false;
     checkingSession := true; isAuthenticated := false; me := JNull;
     statusCode := None; error := []; success := [] |}.

Definition set_username (v : jsstring) (s : State) : State :=
  {| username := v; password := password s; loading := loading s;
     checkingSession := checkingSession s;
     isAuthenticated := isAuthenticated s; me := me s;
     statusCode := statusCode s; error := error s; success := success s |}.

Definition set_password (v : jsstring) (s : State) : State :=
  {| username := username s; password := v; loading := loading s;
     checkingSession := checkingSession s;
     isAuthenticated := isAuthenticated s; me := me s;
     statusCode := statusCode s; error := error s; success := success s |}.

Definition set_loading (v : bool) (s : State) : State :=
  {| username := username s; password := password s; loading := v;
     checkingSession := checkingSession s;
     isAuthenticated := isAuthenticated s; me := me s;
     statusCode := statusCode s; error := error s; success := success s |}.

Definition set_checkingSession (v : bool) (s : State) : State :=
  {| username := username s; password := password s; loading := loading s;
     checkingSession := v;
     isAuthenticated := isAuthenticated s; me := me s;
     statusCode := statusCode s; error := error s; success := success s |}.

Definition set_isAuthenticated (v : bool) (s : State) : State :=
  {| username := username s; password := password s; loading := loading s;
     checkingSession := checkingSession s;
     isAuthenticated := v; me := me s;
     statusCode := statusCode s; error := error s; success := success s |}.

Definition set_me (v : Json) (s : State) : State :=
  {| username := username s; password := password s; loading := loading s;
     checkingSession := checkingSession s;
     isAuthenticated := isAuthenticated s; me := v;
     statusCode := statusCode s; error := error s; success := success s |}.

Definition set_statusCode (v : option Z) (s : State) : State :=
  {| username := username s; password := password s; loading := loading s;
     checkingSession := checkingSession s;
     isAuthenticated := isAuthenticated s; me := me s;
     statusCode := v; error := error s; success := success s |}.

Definition set_error (v : jsstring) (s : State) : State :=
  {| username := username s; password := password s; loading := loading s;
     checkingSession := checkingSession s;
     isAuthenticated := isAuthenticated s; me := me s;
     statusCode := statusCode s; error := v; success := success s |}.

Definition set_success (v : jsstring) (s : State) : State :=
  {| username := username s; password := password s; loading := loading s;
     checkingSession := checkingSession s;
     isAuthenticated := isAuthenticated s; me := me s;
     statusCode := statusCode s; error := error s; success := v |}.

(** [v?.k]: the member of an object ([None] is undefined); for a repeated
    name the last one, as [JSON.parse] keeps it. *)
Definition member (k : string) (v : Json) : option Json :=
  match v with
  | JObj fields =>
      fold_left (fun acc f => if String.eqb (fst f) k then Some (snd f) else acc)
        fields None
  | _ => None
  end.

(** [a ?? b] with [a] possibly undefined. *)
Definition nullish (a : option Json) (b : Json) : Json :=
  match a with
  | None => b
  | Some JNull => b
  | Some v => v
  end.

(** The truth value of [v?.k] in an [if]. *)
Definition truthy (v : option Json) : bool :=
  match v with
  | None => false
  | Some JNull => false
  | Some (JBool b) => b
  | Some (JNum z) => negb (z =? 0)%Z
  | Some (JStr s) => match s with [] => false | _ :: _ => true end
  | Some (JObj _) => true
  end.

(* err instanceof Error ? err.message : "Unknown error occurred" *)
Definition message_of (err : Thrown) : jsstring :=
  match err with
  | ErrorObject m => m
  | OtherValue => js "Unknown error occurred"
  end.

(* the four assignments that open each of the three functions *)
Definition begin (s : State) : State :=
  set_statusCode None (set_success [] (set_error [] (set_loading true s))).

(* catch (err) { error = ... } finally { loading = false } *)
Definition finish (r : State * option Thrown) : State :=
  let s := match snd r with
           | Some err => set_error (message_of err) (fst r)
           | None => fst r
           end in
  set_loading false s.

Definition me_request : FetchRequest :=
  {| url := ME_PATH; method := js "GET"; credentials := js "include";
     content_type := None; body := None |}.

(** The [try] block of [fetchMe]: the state it leaves and what it threw. *)
Definition fetchMe_try (net : Network) (silentUnauthorized : bool) (s : State)
  : State * option Thrown :=
  match net me_request with
  | Rejects err => (s, Some err)
  | Resolves res =>
      let s := set_statusCode (Some (res_status res)) s in
      if negb (ok res) then
        if (res_status res =? 401)%Z then
          let s := set_me JNull (set_isAuthenticated false s) in
          if silentUnauthorized then (s, None)
          else (s, Some (ErrorObject
                           (js "Session expired. Please login again.")))
        else
          (s, Some (ErrorObject (js "Failed to fetch profile ("
                                 ++ js (pretty (res_status res)) ++ js ")")))
      else
        match res_json res with
        | SyntaxError m => (s, Some (ErrorObject m))
        | Parses data =>
            let s := set_me (nullish (member "user" data) data) s in
            let s := set_isAuthenticated true s in
            (set_success (js "Logged in successfully") s, None)
        end
  end.

Definition fetchMe (net : Network) (silentUnauthorized : bool) (s : State)
  : State * list FetchRequest :=
  (finish (fetchMe_try net silentUnauthorized (begin s)), [me_request]).

Definition login_request (s : State) : FetchRequest :=
  {| url := LOGIN_PATH; method := js "POST"; credentials := js "include";
     content_type := Some (js "application/json");
     body := Some (JObj [("username", JStr (username s));
                         ("password", JStr (password s))]) |}.

(** The message thrown for a failed login: the reply's [message], else its
    [error], else the status, each read only when truthy. *)
Definition login_failure_message (res : FetchResponse) : jsstring :=
  let message := js "Login failed (" ++ js (pretty (res_status res)) ++ js ")" in
  match res_json res with
  | SyntaxError _ => message
  | Parses errData =>
      let message :=
        if truthy (member "error" errData)
        then String_of (default JNull (member "error" errData))
        else message in
      if truthy (member "message" errData)
      then String_of (default JNull (member "message" errData))
      else message
  end.

Definition login_try (net : Network) (s : State)
  : State * option Thrown * list FetchRequest :=
  match net (login_request s) with
  | Rejects err => (s, Some err, [login_request s])
  | Resolves res =>
      let s1 := set_statusCode (Some (res_status res)) s in
      if negb (ok res) then
        (s1, Some (ErrorObject (login_failure_message res)), [login_request s])
      else
        let s2 := set_password [] s1 in
        let r := fetchMe net false s2 in
        (fst r, None, login_request s :: snd r)
  end.

Definition login (net : Network) (s : State) : State * list FetchRequest :=
  let r := login_try net (begin s) in
  (finish (fst r), snd r).

Definition logout_request : FetchRequest :=
  {| url := LOGOUT_PATH; method := js "POST"; credentials := js "include";
     content_type := None; body := None |}.

Definition logout_try (net : Network) (s : State) : State * option Thrown :=
  match net logout_request with
  | Rejects err => (s, Some err)
  | Resolves res =>
      let s := set_statusCode (Some (res_status res)) s in
      if negb (ok res) then
        (s, Some (ErrorObject (js "Logout failed ("
                               ++ js (pretty (res_status res)) ++ js ")")))
      else
        let s := set_me JNull (set_isAuthenticated false s) in
        (set_success (js "Logged out") s, None)
  end.

Definition logout (net : Network) (s : State) : State * list FetchRequest :=
  (finish (logout_try net (begin s)), [logout_request]).

(* onMount *)
Definition onMount (net : Network) (s : State) : State * list FetchRequest :=
  let r := fetchMe net true s in
  (set_checkingSession false (fst r), snd r).

(** What the user and the page can do: the mount, the bound inputs, the
    form's submit, and the two buttons.  The click on "Refresh profile" calls
    [fetchMe] with the event as its argument, which is truthy. *)
Inductive Action :=
| Mount
| TypeUsername (v : jsstring)
| TypePassword (v : jsstring)
| Submit
| ClickRefresh
| ClickLogout.

Definition act (net : Network) (a : Action) (s : State) : State :=
  match a with
  | Mount => fst (onMount net s)
  | TypeUsername v => set_username v s
  | TypePassword v => set_password v s
  | Submit => fst (login net s)
  | ClickRefresh => fst (fetchMe net true s)
  | ClickLogout => fst (logout net s)
  end.

(** The states the page can be in: each action has its own network. *)
Inductive reachable : State -> Prop :=
| reach_initial : reachable initial
| reach_act net a s : reachable s -> reachable (act net a s).

(** What holds of the page between two actions. *)
Definition settled (s : State) : Prop :=
  loading s = false
  /\ (error s = [] \/ success s = [])
  /\ (isAuthenticated s = false -> me s = JNull)
  /\ (success s = js "Logged in successfully" -> isAuthenticated s = true)
  /\ (success s = js "Logged out" -> isAuthenticated s = false).

End Page.

(** ** Sanity checks on concrete strings *)

Example encode_semicolon :
  encodeURIComponent (js "a;b=c d") = Ok (js "a%3Bb%3Dc%20d").
Proof. reflexivity. Qed.

(* U+00E9, U+20AC and the pair D83D DE00 (U+1F600) *)
Example encode_non_ascii :
  encodeURIComponent [233; 8364; 55357; 56832]%N
  = Ok (js "%C3%A9%E2%82%AC%F0%9F%98%80").
Proof. reflexivity. Qed.

Example decode_non_ascii :
  decodeURIComponent (js "%C3%A9%E2%82%AC%F0%9F%98%80")
  = Ok [233; 8364; 55357; 56832]%N.
Proof. reflexivity. Qed.

Example decode_malformed : decodeURIComponent (js "%") = Throw URIError.
Proof. reflexivity. Qed.

Example decode_overlong : decodeURIComponent (js "%C0%80") = Throw URIError.
Proof. reflexivity. Qed.

Example encode_lone_surrogate : encodeURIComponent [55296]%N = Throw URIError.
Proof. reflexivity. Qed.

Example parse_two_cookies :
  parseCookies (Some (js "theme=dark; auth_token=abc"))
  = Ok (<[js "auth_token" := js "abc"]> {[ js "theme" := js "dark" ]}).
Proof. vm_compute. reflexivity. Qed.

(** The scenario of section 8 of the specification, on the reference
    instance: the store holds [alice] with the hash of "correct-pw". *)
Example alice_logs_in :
  exists hs,
    fst (serve (login Reference.codec Reference.hasher Reference.development
                  Reference.db 1000
                  (Reference.credentials "alice" "correct-pw")))
    = Reply 200 hs (user_body (JNum 1) (js "alice") None).
Proof. eexists. vm_compute. reflexivity. Qed.

Example alice_wrong_password :
  fst (serve (login Reference.codec Reference.hasher Reference.development
                Reference.db 1000 (Reference.credentials "alice" "wrong")))
  = Reply 401 ∅ (error_body "Invalid username or password").
Proof. reflexivity. Qed.

Example bob_unknown :
  fst (serve (login Reference.codec Reference.hasher Reference.development
                Reference.db 1000 (Reference.credentials "bob" "x")))
  = Reply 401 ∅ (error_body "Invalid username or password").
Proof. reflexivity. Qed.

Example logout_in_production :
  serve (logout Reference.production)
  = (Reply 200
       {[ "Set-Cookie" :=
            js "auth_token=; HttpOnly; Path=/; SameSite=Lax; Max-Age=0; Secure" ]}
       (JObj [("success", JBool true)]), []).
Proof. reflexivity. Qed.

Example corrupt_hash_record :
  serve (login Reference.codec Reference.hasher Reference.development
           {| rows := [ {| row_id := JNum 3; row_username := js "dave";
                           row_password_hash := Some (js "not-a-hash");
                           row_name := None |} ];
              reachable := true |}
           1000 (Reference.credentials "dave" "pw"))
  = (Fault (SystemError "corrupt hash record"),
     [QueryUser (js "dave");
      VerifyPassword (Some (js "not-a-hash")) (js "pw")]).
Proof. reflexivity. Qed.

Example number_in_safe_range :
  Number_toString (-9007199254740991) = js "-9007199254740991".
Proof. vm_compute. reflexivity. Qed.

Example number_rounded :
  Number_toString (2 ^ 60) = js "1152921504606847000".
Proof. vm_compute. reflexivity. Qed.

Example number_exponent_form :
  Number_toString (2 ^ 70) = js "1.1805916207174113e+21".
Proof. vm_compute. reflexivity. Qed.

Example logout_in_development :
  set_cookie (fst (serve (logout Reference.development)))
  = Some (js "auth_token=; HttpOnly; Path=/; SameSite=Lax; Max-Age=0").
Proof. reflexivity. Qed.

(** * Properties *)

(** Division and remainder by constants, for [lia]. *)
Ltac Zify.zify_post_hook ::= Z.to_euclidean_division_equations.

(** ** Percent escapes and UTF-8 *)

Section Escapes.
Local Open Scope N_scope.

Ltac ncases :=
  repeat match goal with
    | |- context [?a <? ?b] => destruct (N.ltb_spec a b)
    | |- context [?a <=? ?b] => destruct (N.leb_spec a b)
    | |- context [?a =? ?b] => destruct (N.eqb_spec a b)
    end; simpl; try lia.

Lemma hex_value_digit n : n < 16 -> hex_value (hex_digit n) = Some n.
Proof.
  intros Hn. unfold hex_value, hex_digit.
  destruct (N.ltb_spec n 10); ncases; f_equal; lia.
Qed.

Lemma unescape_literal c s :
  c <> 37 ->
  unescape (c :: s) = let* items := unescape s in Ok (Literal c :: items).
Proof. intros Hc. simpl. destruct (N.eqb_spec c 37); [done|done]. Qed.

Lemma unescape_percent bs s :
  Forall (fun b => b < 256) bs ->
  unescape (percent bs ++ s)
  = let* items := unescape s in Ok (map Octet bs ++ items).
Proof.
  induction 1 as [|b bs Hb _ IH]; simpl.
  - by destruct (unescape s).
  - rewrite !hex_value_digit by lia.
    change (flat_map _ bs) with (percent bs). rewrite IH.
    destruct (unescape s); simpl; [|done].
    do 3 f_equal. lia.
Qed.
Ltac booltrue := 
  repeat match goal with
  | |- context [?a <? ?b] =>
      first [ rewrite (proj2 (N.ltb_lt a b)) by lia
            | rewrite (proj2 (N.ltb_ge a b)) by lia ]
  | |- context [?a <=? ?b] =>
      first [ rewrite (proj2 (N.leb_le a b)) by lia
            | rewrite (proj2 (N.leb_gt a b)) by lia ]
  end.

Lemma utf8_octets cp : cp <= 0x10FFFF -> Forall (fun b => b < 256) (utf8 cp).
Proof.
  intros H. unfold utf8.
  destruct (N.ltb_spec cp 0x80); [|destruct (N.ltb_spec cp 0x800);
    [|destruct (N.ltb_spec cp 0x10000)]];
    repeat constructor; lia.
Qed.

Lemma assemble_utf8 cp r :
  scalar cp ->
  assemble (map Octet (utf8 cp) ++ r)
  = let* t := assemble r in Ok (utf16 cp ++ t).
Proof.
  intros [Hmax Hsur]. unfold utf8.
  destruct (N.ltb_spec cp 0x80) as [H1|H1].
  { cbn [map app assemble]. rewrite (proj2 (N.ltb_lt cp 0x80)) by lia.
    unfold utf16. by rewrite (proj2 (N.ltb_lt cp 0x10000)) by lia. }
  destruct (N.ltb_spec cp 0x800) as [H2|H2].
  { cbn [map app assemble]. unfold is_continuation, scalar_from.
    replace ((0xC0 + cp / 64 - 0xC0) * 64 + (0x80 + cp mod 64 - 0x80)) with cp by lia.
    booltrue. reflexivity. }
  destruct (N.ltb_spec cp 0x10000) as [H3|H3].
  { cbn [map app assemble]. unfold is_continuation, scalar_from.
    replace ((0xE0 + cp / 4096 - 0xE0) * 4096
             + (0x80 + (cp / 64) mod 64 - 0x80) * 64
             + (0x80 + cp mod 64 - 0x80)) with cp by lia.
    booltrue.
    assert (((0xD800 <=? cp) && (cp <=? 0xDFFF)) = false) as ->.
    { apply andb_false_iff. rewrite N.leb_gt, N.leb_gt. lia. }
    reflexivity. }
  cbn [map app assemble]. unfold is_continuation, scalar_from.
  replace ((0xF0 + cp / 262144 - 0xF0) * 262144
           + (0x80 + (cp / 4096) mod 64 - 0x80) * 4096
           + (0x80 + (cp / 64) mod 64 - 0x80) * 64
           + (0x80 + cp mod 64 - 0x80)) with cp by lia.
  booltrue.
  reflexivity.
Qed.
End Escapes.

(** ** decodeURIComponent after encodeURIComponent *)

Section Roundtrip.
Local Open Scope N_scope.
Lemma decode_literal c e :
  c <> 37 ->
  decodeURIComponent (c :: e) = let* t := decodeURIComponent e in Ok (c :: t).
Proof.
  intros Hc. unfold decodeURIComponent. rewrite unescape_literal by done.
  by destruct (unescape e).
Qed.

Lemma decode_percent cp e :
  scalar cp ->
  decodeURIComponent (percent (utf8 cp) ++ e)
  = let* t := decodeURIComponent e in Ok (utf16 cp ++ t).
Proof.
  intros Hcp. unfold decodeURIComponent.
  rewrite unescape_percent by (apply utf8_octets, Hcp).
  destruct (unescape e) as [items|]; simpl; [|done].
  by apply assemble_utf8.
Qed.

Lemma unescaped_not_percent c : unescaped c = true -> c <> 37.
Proof. intros H ->. discriminate. Qed.

Lemma surrogate_pair c d :
  is_lead_surrogate c = true -> is_trail_surrogate d = true ->
  let cp := (c - 0xD800) * 0x400 + (d - 0xDC00) + 0x10000 in
  scalar cp /\ utf16 cp = [c; d].
Proof.
  unfold is_lead_surrogate, is_trail_surrogate, scalar, utf16.
  rewrite !andb_true_iff, !N.leb_le. intros [??] [??]. cbv zeta.
  split; [lia|].
  rewrite (proj2 (N.ltb_ge _ _)) by lia. f_equal; [|f_equal]; lia.
Qed.

Lemma plain_scalar c :
  code_unit c -> is_lead_surrogate c = false -> is_trail_surrogate c = false ->
  scalar c /\ utf16 c = [c].
Proof.
  unfold code_unit, is_lead_surrogate, is_trail_surrogate, scalar, utf16.
  rewrite !andb_false_iff, !N.leb_gt. intros ? [?|?] [?|?];
    (split; [lia|]); by rewrite (proj2 (N.ltb_lt _ _)) by lia.
Qed.

Lemma decode_encode_bounded n : forall s e,
  (length s <= n)%nat -> Forall code_unit s ->
  encodeURIComponent s = Ok e -> decodeURIComponent e = Ok s.
Proof.
  induction n as [|n IH]; intros s e Hlen Hs He.
  { destruct s; simpl in Hlen; [|lia]. by inversion He. }
  destruct s as [|c s']; [by inversion He|].
  simpl in Hlen. inversion Hs as [|?? Hc Hs']; subst.
  simpl in He. destruct (unescaped c) eqn:Hu.
  { destruct (encodeURIComponent s') as [r|] eqn:Hr; [|done].
    inversion He; subst. rewrite decode_literal by by apply unescaped_not_percent.
    rewrite (IH s' r) by (done || lia). done. }
  destruct (is_lead_surrogate c) eqn:Hl.
  { destruct s' as [|d s'']; [done|].
    destruct (is_trail_surrogate d) eqn:Ht; [|done].
    destruct (encodeURIComponent s'') as [r|] eqn:Hr; [|done].
    inversion He; subst. destruct (surrogate_pair c d Hl Ht) as [Hsc H16].
    rewrite decode_percent by done. inversion Hs'; subst.
    rewrite (IH s'' r) by (done || simpl in Hlen; lia). simpl.
    by rewrite H16. }
  destruct (is_trail_surrogate c) eqn:Ht; [done|].
  destruct (encodeURIComponent s') as [r|] eqn:Hr; [|done].
  inversion He; subst. destruct (plain_scalar c Hc Hl Ht) as [Hsc H16].
  rewrite decode_percent by done.
  rewrite (IH s' r) by (done || lia). simpl. by rewrite H16.
Qed.

Lemma decode_encode s e :
  Forall code_unit s ->
  encodeURIComponent s = Ok e -> decodeURIComponent e = Ok s.
Proof. apply (decode_encode_bounded (length s)). done. Qed.
End Roundtrip.

(** ** The units encodeURIComponent writes *)

Section Charset.
Local Open Scope N_scope.
Lemma hex_digit_unescaped n : n < 16 -> unescaped (hex_digit n) = true.
Proof.
  intros Hn. unfold hex_digit, unescaped.
  destruct (N.ltb_spec n 10) as [Hlow|Hhigh].
  - assert (is_digit (48 + n) = true) as ->.
    { unfold is_digit. rewrite andb_true_iff, !N.leb_le. lia. }
    by rewrite orb_true_r.
  - assert (is_alpha (55 + n) = true) as ->; [|done].
    unfold is_alpha. rewrite orb_true_iff, !andb_true_iff, !N.leb_le. lia.
Qed.

Lemma percent_units bs :
  Forall (fun b => b < 256) bs -> Forall uri_unit (percent bs).
Proof.
  induction 1 as [|b bs Hb _ IH]; simpl; [constructor|].
  constructor; [by right|].
  constructor; [left; apply hex_digit_unescaped; lia|].
  constructor; [left; apply hex_digit_unescaped; lia|]. done.
Qed.

Lemma encode_units_bounded n : forall s e,
  (length s <= n)%nat -> Forall code_unit s ->
  encodeURIComponent s = Ok e -> Forall uri_unit e.
Proof.
  induction n as [|n IH]; intros s e Hlen Hs He.
  { destruct s; simpl in Hlen; [|lia]. inversion He. constructor. }
  destruct s as [|c s']; [inversion He; constructor|].
  simpl in Hlen. inversion Hs as [|?? Hc Hs']; subst.
  simpl in He. destruct (unescaped c) eqn:Hu.
  { destruct (encodeURIComponent s') as [r|] eqn:Hr; [|done].
    inversion He; subst. constructor; [by left|].
    apply (IH s'); (done || lia). }
  destruct (is_lead_surrogate c) eqn:Hl.
  { destruct s' as [|d s'']; [done|].
    destruct (is_trail_surrogate d) eqn:Ht; [|done].
    destruct (encodeURIComponent s'') as [r|] eqn:Hr; [|done].
    inversion He; subst. destruct (surrogate_pair c d Hl Ht) as [Hsc _].
    apply Forall_app. split; [apply percent_units, utf8_octets, Hsc|].
    inversion Hs'; subst. apply (IH s''); (done || simpl in Hlen; lia). }
  destruct (is_trail_surrogate c) eqn:Ht; [done|].
  destruct (encodeURIComponent s') as [r|] eqn:Hr; [|done].
  inversion He; subst. destruct (plain_scalar c Hc Hl Ht) as [Hsc _].
  apply Forall_app. split; [apply percent_units, utf8_octets, Hsc|].
  apply (IH s'); (done || lia).
Qed.

Lemma encode_units s e :
  Forall code_unit s -> encodeURIComponent s = Ok e -> Forall uri_unit e.
Proof. apply (encode_units_bounded (length s)). done. Qed.

Lemma uri_unit_plain c :
  uri_unit c -> c <> 59 /\ c <> 61 /\ is_white_space c = false.
Proof.
  intros [H| ->]; [|done].
  repeat split; try (intros ->; discriminate).
  destruct (is_white_space c) eqn:Hw; [|done].
  unfold is_white_space in Hw. unfold unescaped, is_alpha, is_digit, is_mark in H.
  repeat (apply orb_prop in Hw; destruct Hw as [Hw|Hw]);
    try (apply N.eqb_eq in Hw; subst; discriminate).
  apply andb_prop in Hw. destruct Hw as [H1 H2].
  apply N.leb_le in H1.
  repeat (apply orb_prop in H; destruct H as [H|H]);
    repeat match goal with
      | H : _ && _ = true |- _ => apply andb_prop in H; destruct H
      | H : (_ <=? _) = true |- _ => apply N.leb_le in H
      | H : (_ =? _) = true |- _ => apply N.eqb_eq in H
      end; lia.
Qed.

(** Strings of unescaped units pass through both directions unchanged. *)
Lemma encode_unescaped s :
  Forall (fun c => unescaped c = true) s -> encodeURIComponent s = Ok s.
Proof.
  induction 1 as [|c s Hc _ IH]; [done|]. simpl. by rewrite Hc, IH.
Qed.

Lemma unescaped_code_unit c : unescaped c = true -> code_unit c.
Proof.
  unfold unescaped, is_alpha, is_digit, is_mark, code_unit. intros H.
  repeat (apply orb_prop in H; destruct H as [H|H]);
    repeat match goal with
      | H : _ && _ = true |- _ => apply andb_prop in H; destruct H
      | H : (_ <=? _) = true |- _ => apply N.leb_le in H
      | H : (_ =? _) = true |- _ => apply N.eqb_eq in H
      end; lia.
Qed.
End Charset.

(** ** split, join and trim *)

Section SplitJoin.
Local Open Scope N_scope.

Lemma String_split_nonempty sep s : String_split sep s <> [].
Proof.
  destruct s as [|c s]; simpl; [done|].
  destruct (c =? sep); [done|]. by destruct (String_split sep s).
Qed.

Lemma String_split_app sep a b :
  String_split sep (a ++ sep :: b) = String_split sep a ++ String_split sep b.
Proof.
  induction a as [|c a IH]; simpl.
  - by rewrite N.eqb_refl.
  - destruct (c =? sep); [by rewrite IH|]. rewrite IH.
    destruct (String_split sep a) eqn:Ha; [|done].
    by apply String_split_nonempty in Ha.
Qed.

Lemma String_split_none sep s : sep ∉ s -> String_split sep s = [s].
Proof.
  induction s as [|c s IH]; intros Hs; [done|]. simpl.
  apply not_elem_of_cons in Hs as [Hc Hs].
  destruct (N.eqb_spec c sep); [congruence|]. by rewrite IH.
Qed.

Lemma String_split_cons sep c s :
  c <> sep ->
  exists p ps, String_split sep s = p :: ps
               /\ String_split sep (c :: s) = (c :: p) :: ps.
Proof.
  intros Hc. simpl. destruct (N.eqb_spec c sep); [done|].
  destruct (String_split sep s) as [|p ps] eqn:Hs.
  - by apply String_split_nonempty in Hs.
  - by exists p, ps.
Qed.

Lemma split_join_prefix x q ps :
  String_split 59 (x ++ Array_join (js "; ") (q :: ps))
  = String_split 59 (x ++ q)
    ++ flat_map (fun o => String_split 59 (32 :: o)) ps.
Proof.
  revert x q. induction ps as [|q' ps IH]; intros x q.
  - simpl. by rewrite app_nil_r.
  - change (Array_join (js "; ") (q :: q' :: ps))
      with (q ++ 59 :: [32] ++ Array_join (js "; ") (q' :: ps)).
    rewrite app_assoc, String_split_app, IH. done.
Qed.

Lemma split_join p ps :
  String_split 59 (Array_join (js "; ") (p :: ps))
  = String_split 59 p ++ flat_map (fun o => String_split 59 (32 :: o)) ps.
Proof. apply (split_join_prefix [] p ps). Qed.
End SplitJoin.

Section Trim.
Local Open Scope N_scope.

Lemma trimStart_id s :
  (forall c, head s = Some c -> is_white_space c = false) -> trimStart s = s.
Proof.
  destruct s as [|c s]; [done|]. intros H. simpl. by rewrite (H c).
Qed.

Lemma trimEnd_id s :
  (forall c, last s = Some c -> is_white_space c = false) -> trimEnd s = s.
Proof.
  intros H. unfold trimEnd.
  rewrite trimStart_id; [apply reverse_involutive|].
  intros c Hc. apply H. by rewrite <- head_reverse.
Qed.

Lemma String_trim_id s :
  (forall c, head s = Some c -> is_white_space c = false) ->
  (forall c, last s = Some c -> is_white_space c = false) ->
  String_trim s = s.
Proof.
  intros Hh Hl. unfold String_trim. rewrite (trimStart_id s) by done.
  by apply trimEnd_id.
Qed.

Lemma String_trim_space s : String_trim (32 :: s) = String_trim s.
Proof. reflexivity. Qed.
End Trim.

(** ** The parseCookies loop *)

Section Cookies.
Local Open Scope N_scope.
Implicit Types (m : gmap jsstring jsstring) (k p : jsstring).

Lemma decode_throws s e : decodeURIComponent s = Throw e -> e = URIError.
Proof.
  unfold decodeURIComponent.
  assert (forall t e, unescape t = Throw e -> e = URIError) as Hu.
  { fix IH 1. intros [|c t] e'; simpl; [done|].
    destruct (c =? 37).
    - destruct t as [|h [|l t]]; [congruence..|].
      destruct (hex_value h), (hex_value l); try congruence.
      destruct (unescape t) eqn:Ht; simpl; [done|].
      intros [= <-]. by apply (IH t).
    - destruct (unescape t) eqn:Ht; simpl; [done|].
      intros [= <-]. by apply (IH t). }
  assert (forall n items e, (length items <= n)%nat ->
            assemble items = Throw e -> e = URIError) as Ha.
  { induction n as [|n IH]; intros items e' Hn.
    { destruct items; [done|simpl in Hn; lia]. }
    destruct items as [|[c|b] r]; simpl in *; [done| |].
    - destruct (assemble r) eqn:Hr; simpl; [done|].
      intros [= <-]. apply (IH r); [lia|done].
    - repeat match goal with
        | |- context [if ?b then _ else _] => destruct b
        | |- context [match ?l with [] => _ | _ :: _ => _ end] =>
            destruct l as [|[?|?] ?]
        | |- Throw _ = Throw _ -> _ => congruence
        | |- (let* t := assemble ?r in _) = Throw _ -> _ =>
            let Hr := fresh in
            destruct (assemble r) eqn:Hr; simpl; [done|];
            intros [= <-]; apply (IH r); [simpl in *; lia|done]
        end. }
  destruct (unescape s) eqn:Hs; simpl; [|intros [= <-]; eauto].
  intros H. by apply (Ha (length a) a).
Qed.

Lemma parseCookies_unfold h :
  parseCookies (Some h) = parseCookies_loop ∅ (String_split 59 h).
Proof. destruct h; reflexivity. Qed.

Lemma step_skip m p : cookie_key p = [] -> parseCookies_step m p = Ok m.
Proof. intros H. unfold parseCookies_step. rewrite H. done. Qed.

Lemma step_bind m p :
  cookie_key p <> [] ->
  parseCookies_step m p
  = let* v := decodeURIComponent (cookie_raw_value p) in
    Ok (assign m (cookie_key p) v).
Proof. intros H. unfold parseCookies_step. by destruct (decide _). Qed.

Lemma assign_lookup_ne m k k' v : k <> k' -> assign m k' v !! k = m !! k.
Proof.
  intros H. unfold assign. destruct (decide _); [done|].
  by rewrite lookup_insert_ne.
Qed.

Lemma assign_lookup_eq m k v :
  k <> js "__proto__" -> assign m k v !! k = Some v.
Proof.
  intros H. unfold assign. destruct (decide _); [done|].
  by rewrite lookup_insert_eq.
Qed.

Lemma assign_proto m k v : assign m k v !! js "__proto__" = m !! js "__proto__".
Proof.
  unfold assign. destruct (decide _) as [|Hk]; [done|].
  by rewrite lookup_insert_ne.
Qed.

Lemma loop_app m ps qs :
  parseCookies_loop m (ps ++ qs)
  = let* m' := parseCookies_loop m ps in parseCookies_loop m' qs.
Proof.
  revert m. induction ps as [|p ps IH]; intros m; [done|]. simpl.
  destruct (parseCookies_step m p); simpl; [apply IH|done].
Qed.

Lemma step_lookup_other m m' p k :
  cookie_key p <> k -> parseCookies_step m p = Ok m' -> m' !! k = m !! k.
Proof.
  intros Hk. unfold parseCookies_step. destruct (decide _); [congruence|].
  destruct (decodeURIComponent _); simpl; [|done].
  intros [= <-]. by apply assign_lookup_ne.
Qed.

Lemma loop_lookup_other m m' ps k :
  Forall (fun p => cookie_key p <> k) ps ->
  parseCookies_loop m ps = Ok m' -> m' !! k = m !! k.
Proof.
  intros H. revert m. induction H as [|p ps Hp _ IH]; intros m; simpl.
  { congruence. }
  destruct (parseCookies_step m p) as [m1|] eqn:H1; simpl; [|done].
  intros H2. rewrite (IH _ H2). by apply (step_lookup_other m m1 p).
Qed.

Lemma step_lookup_empty m m' p :
  parseCookies_step m p = Ok m' -> m' !! [] = m !! [].
Proof.
  unfold parseCookies_step. destruct (decide _); [congruence|].
  destruct (decodeURIComponent _); simpl; [|done].
  intros [= <-]. by apply assign_lookup_ne.
Qed.

Lemma loop_lookup_empty m m' ps :
  parseCookies_loop m ps = Ok m' -> m' !! [] = m !! [].
Proof.
  revert m. induction ps as [|p ps IH]; intros m; simpl; [congruence|].
  destruct (parseCookies_step m p) as [m1|] eqn:H1; simpl; [|done].
  intros H2. rewrite (IH _ H2). by apply (step_lookup_empty m m1 p).
Qed.

Lemma loop_last_wins m m' ps p qs :
  cookie_key p <> [] -> cookie_key p <> js "__proto__" ->
  Forall (fun q => cookie_key q <> cookie_key p) qs ->
  parseCookies_loop m (ps ++ p :: qs) = Ok m' ->
  exists v, decodeURIComponent (cookie_raw_value p) = Ok v
            /\ m' !! cookie_key p = Some v.
Proof.
  intros Hne Hproto Hqs. rewrite loop_app.
  destruct (parseCookies_loop m ps) as [m1|]; simpl; [|done].
  rewrite step_bind by done.
  destruct (decodeURIComponent (cookie_raw_value p)) as [v|]; simpl; [|done].
  intros Hl. exists v. split; [done|].
  rewrite (loop_lookup_other _ _ _ _ Hqs Hl). by apply assign_lookup_eq.
Qed.

Lemma loop_lookup_proto ps : forall m m',
  parseCookies_loop m ps = Ok m' -> m' !! js "__proto__" = m !! js "__proto__".
Proof.
  induction ps as [|p ps IH]; intros m m'; cbn [parseCookies_loop].
  { by intros [= <-]. }
  destruct (parseCookies_step m p) as [m1|] eqn:Hs; cbn [bind]; [|done].
  intros Hl. rewrite (IH _ _ Hl). unfold parseCookies_step in Hs.
  destruct (decide _); [by injection Hs as <-|].
  destruct (decodeURIComponent _); cbn [bind] in Hs; [|done].
  injection Hs as <-. apply assign_proto.
Qed.

Lemma step_throws m p e : parseCookies_step m p = Throw e -> e = URIError.
Proof.
  unfold parseCookies_step. destruct (decide _); [done|].
  destruct (decodeURIComponent _) eqn:Hd; simpl; [done|].
  intros [= <-]. by apply decode_throws in Hd.
Qed.

Lemma loop_throws m ps e : parseCookies_loop m ps = Throw e -> e = URIError.
Proof.
  revert m. induction ps as [|p ps IH]; intros m; simpl; [done|].
  destruct (parseCookies_step m p) eqn:Hs; simpl; [apply IH|].
  intros [= <-]. by apply step_throws in Hs.
Qed.

Lemma step_ok m p :
  part_decodable p = true <-> exists m', parseCookies_step m p = Ok m'.
Proof.
  unfold part_decodable, parseCookies_step.
  destruct (decide (cookie_key p = [])) as [Hk|Hk].
  - rewrite bool_decide_eq_true_2 by done. split; [by eexists|done].
  - rewrite bool_decide_eq_false_2 by done. simpl.
    destruct (decodeURIComponent _); simpl.
    + split; [by eexists|done].
    + split; [done|by intros [? ?]].
Qed.

Lemma loop_ok m ps :
  forallb part_decodable ps = true <-> exists m', parseCookies_loop m ps = Ok m'.
Proof.
  revert m. induction ps as [|p ps IH]; intros m; simpl.
  { split; [by eexists|done]. }
  rewrite andb_true_iff, (step_ok m p). split.
  - intros [[m1 H1] H2]. rewrite H1. simpl. by apply IH.
  - intros [m' H]. destruct (parseCookies_step m p) as [m1|]; simpl in H; [|done].
    split; [by eexists|]. apply (IH m1). by eexists.
Qed.

(** The session cookie the handler reads: the value of the last pair named
    [auth_token]. *)
Lemma session_cookie_read h ps p qs v :
  forallb part_decodable (String_split 59 h) = true ->
  String_split 59 h = ps ++ p :: qs ->
  cookie_key p = AUTH_COOKIE ->
  Forall (fun q => cookie_key q <> AUTH_COOKIE) qs ->
  decodeURIComponent (cookie_raw_value p) = Ok v ->
  exists m, parseCookies (Some h) = Ok m /\ m !! AUTH_COOKIE = Some v.
Proof.
  intros Hok Hsplit Hkey Hqs Hv. rewrite parseCookies_unfold.
  destruct (proj1 (loop_ok ∅ (String_split 59 h)) Hok) as [m Hm].
  exists m. split; [done|]. rewrite Hsplit in Hm. rewrite <- Hkey in Hqs.
  destruct (loop_last_wins ∅ m ps p qs) as (v' & Hv' & Hl);
    [by rewrite Hkey..|done|done|].
  rewrite <- Hkey, Hl. congruence.
Qed.

(** No pair is named [auth_token]: the handler reads no session cookie. *)
Lemma session_cookie_absent h :
  forallb part_decodable (String_split 59 h) = true ->
  Forall (fun q => cookie_key q <> AUTH_COOKIE) (String_split 59 h) ->
  exists m, parseCookies (Some h) = Ok m /\ m !! AUTH_COOKIE = None.
Proof.
  intros Hok Hno. rewrite parseCookies_unfold.
  destruct (proj1 (loop_ok ∅ (String_split 59 h)) Hok) as [m Hm].
  exists m. split; [done|]. by rewrite (loop_lookup_other _ _ _ _ Hno Hm).
Qed.
End Cookies.

(** ** parseCookies after buildCookie *)

Section BuildParse.
Local Open Scope N_scope.
Implicit Types (m : gmap jsstring jsstring) (k p : jsstring).

Lemma part_compatible_space name p :
  part_compatible name (32 :: p) = part_compatible name p.
Proof. reflexivity. Qed.

Lemma part_compatible_spec name p :
  part_compatible name p = true ->
  cookie_key p <> name /\ part_decodable p = true.
Proof.
  unfold part_compatible, part_decodable. rewrite andb_true_iff, negb_true_iff.
  intros [H1 H2]. split; [|done]. by apply bool_decide_eq_false in H1.
Qed.

Lemma attribute_parts name o :
  forallb (part_compatible name) (String_split 59 o) = true ->
  forallb (part_compatible name) (String_split 59 (32 :: o)) = true.
Proof.
  destruct (String_split_cons 59 32 o) as (p & ps & -> & ->); [done|].
  simpl. by rewrite part_compatible_space.
Qed.

Lemma attributes_parts name options :
  attributes_compatible name options = true ->
  forallb (part_compatible name)
    (flat_map (fun o => String_split 59 (32 :: o)) options) = true.
Proof.
  unfold attributes_compatible. induction options as [|o os IH]; [done|].
  cbn [forallb flat_map]. rewrite andb_true_iff. intros [Ho Hos].
  rewrite forallb_app, (attribute_parts _ _ Ho). by apply IH.
Qed.

Lemma cookie_name_ok_spec name :
  cookie_name_ok name = true ->
  (exists c t, name = c :: t /\ is_white_space c = false)
  /\ (59 ∉ name) /\ (61 ∉ name) /\ name <> js "__proto__".
Proof.
  unfold cookie_name_ok. rewrite !andb_true_iff, !negb_true_iff.
  intros [[H1 H2] H3]. apply bool_decide_eq_false in H3.
  split; [|split; [|split]]; [| | |done].
  - destruct name as [|c t]; [done|]. apply negb_true_iff in H1. eauto.
  - intros Hin. rewrite forallb_forall in H2.
    apply list_elem_of_In, H2 in Hin. done.
  - intros Hin. rewrite forallb_forall in H2.
    apply list_elem_of_In, H2 in Hin. done.
Qed.

Lemma uri_units_plain e :
  Forall uri_unit e ->
  (59 ∉ e) /\ (61 ∉ e) /\ Forall (fun c => is_white_space c = false) e.
Proof.
  intros H. repeat split.
  - intros Hin. rewrite Forall_forall in H.
    by destruct (uri_unit_plain _ (H _ Hin)) as (? & ? & ?).
  - intros Hin. rewrite Forall_forall in H.
    by destruct (uri_unit_plain _ (H _ Hin)) as (? & ? & ?).
  - eapply Forall_impl; [exact H|]. intros c Hc.
    by destruct (uri_unit_plain _ Hc) as (? & ? & ?).
Qed.

(** The leading pair written by [buildCookie], read back by the loop. *)
Lemma pair_key_value name e :
  cookie_name_ok name = true -> Forall uri_unit e ->
  cookie_key (name ++ 61 :: e) = name
  /\ cookie_raw_value (name ++ 61 :: e) = e.
Proof.
  intros Hname He.
  destruct (cookie_name_ok_spec _ Hname) as ((c & t & -> & Hc) & _ & H61 & _).
  destruct (uri_units_plain _ He) as (_ & He61 & Hws).
  unfold cookie_key, cookie_raw_value.
  rewrite String_trim_id.
  - rewrite String_split_app, !String_split_none by done. done.
  - simpl. by intros ? [= <-].
  - intros x. change ((c :: t) ++ 61 :: e) with ((c :: t) ++ [61] ++ e).
    rewrite app_assoc, last_app.
    destruct (last e) as [y|] eqn:Hy.
    + intros [= <-]. rewrite Forall_forall in Hws. apply Hws.
      by apply last_Some_elem_of.
    + rewrite last_snoc. by intros [= <-].
Qed.

Lemma parse_build name value options header :
  cookie_name_ok name = true ->
  attributes_compatible name options = true ->
  Forall code_unit value ->
  buildCookie name value options = Ok header ->
  exists m, parseCookies (Some header) = Ok m /\ m !! name = Some value.
Proof.
  intros Hname Hopts Hvalue. unfold buildCookie.
  destruct (encodeURIComponent value) as [e|] eqn:He; cbn [bind]; [|done].
  intros Heq.
  assert (header = Array_join (js "; ") ((name ++ js "=" ++ e) :: options))
    as -> by congruence.
  clear Heq.
  pose proof (encode_units _ _ Hvalue He) as Hunits.
  pose proof (decode_encode _ _ Hvalue He) as Hdec.
  destruct (pair_key_value name e Hname Hunits) as [Hkey Hraw].
  destruct (cookie_name_ok_spec _ Hname) as (Hhd & H59 & _ & Hproto).
  destruct (uri_units_plain _ Hunits) as (He59 & _ & _).
  rewrite parseCookies_unfold, split_join.
  change (name ++ js "=" ++ e) with (name ++ 61 :: e).
  rewrite (String_split_none 59 (name ++ 61 :: e)).
  2:{ rewrite elem_of_app, elem_of_cons. intros [?|[?|?]]; done. }
  pose proof (attributes_parts _ _ Hopts) as Hparts.
  set (rest := flat_map _ options) in *.
  assert (Forall (fun q => cookie_key q <> name) rest
          /\ forallb part_decodable rest = true) as [Hother Hok].
  { clearbody rest. induction rest as [|q rest IH]; [by split|].
    simpl in Hparts. apply andb_true_iff in Hparts as [Hq Hrest].
    destruct (part_compatible_spec _ _ Hq) as [Hq1 Hq2].
    destruct (IH Hrest) as [IH1 IH2]. split; [by constructor|].
    simpl. by rewrite Hq2. }
  simpl. rewrite step_bind by (rewrite Hkey; by destruct Hhd as (?&?&->&_)).
  rewrite Hraw, Hdec, Hkey. simpl.
  destruct (proj1 (loop_ok (assign ∅ name value) rest) Hok) as [m Hm].
  exists m. split; [done|].
  rewrite (loop_lookup_other _ _ _ _ Hother Hm). by apply assign_lookup_eq.
Qed.
End BuildParse.

(** ** Well-formed strings *)

Section WellFormed.
Local Open Scope N_scope.

Lemma unescaped_not_surrogate c :
  unescaped c = true ->
  is_lead_surrogate c = false /\ is_trail_surrogate c = false.
Proof.
  intros H. apply unescaped_code_unit in H as Hc.
  unfold unescaped, is_alpha, is_digit, is_mark in H.
  unfold is_lead_surrogate, is_trail_surrogate.
  rewrite !andb_false_iff, !N.leb_gt.
  repeat (apply orb_prop in H; destruct H as [H|H]);
    repeat match goal with
      | H : _ && _ = true |- _ => apply andb_prop in H; destruct H
      | H : (_ <=? _) = true |- _ => apply N.leb_le in H
      | H : (_ =? _) = true |- _ => apply N.eqb_eq in H
      end; lia.
Qed.

Lemma encode_ok_bounded n : forall s,
  (length s <= n)%nat ->
  is_ok (encodeURIComponent s) = isWellFormed s.
Proof.
  induction n as [|n IH]; intros s Hlen.
  { destruct s; [done|simpl in Hlen; lia]. }
  destruct s as [|c s']; [done|]. simpl in Hlen. simpl.
  destruct (unescaped c) eqn:Hu.
  { destruct (unescaped_not_surrogate c Hu) as [-> ->]. simpl.
    rewrite <- (IH s') by lia. by destruct (encodeURIComponent s'). }
  destruct (is_lead_surrogate c).
  { destruct s' as [|d s'']; [done|].
    destruct (is_trail_surrogate d); [|done]. simpl.
    rewrite <- (IH s'') by (simpl in Hlen; lia).
    by destruct (encodeURIComponent s''). }
  destruct (is_trail_surrogate c); [done|]. simpl.
  rewrite <- (IH s') by lia. by destruct (encodeURIComponent s').
Qed.

Lemma encode_ok s : is_ok (encodeURIComponent s) = isWellFormed s.
Proof. by apply (encode_ok_bounded (length s)). Qed.

Lemma encode_well_formed s :
  isWellFormed s = true -> exists e, encodeURIComponent s = Ok e.
Proof.
  rewrite <- encode_ok. destruct (encodeURIComponent s); [eauto|done].
Qed.

(** Whatever the input, [;] is never written. *)
Lemma hex_digit_not_semicolon n : hex_digit n <> 59.
Proof. unfold hex_digit. destruct (N.ltb_spec n 10); lia. Qed.

Lemma percent_no_semicolon bs : 59 ∉ percent bs.
Proof.
  induction bs as [|b bs IH]; simpl; [apply not_elem_of_nil|].
  rewrite !not_elem_of_cons. repeat split; [done| | |done];
    apply not_eq_sym, hex_digit_not_semicolon.
Qed.

Lemma encode_no_semicolon_bounded n : forall s e,
  (length s <= n)%nat -> encodeURIComponent s = Ok e -> 59 ∉ e.
Proof.
  induction n as [|n IH]; intros s e Hlen He.
  { destruct s; simpl in Hlen; [|lia]. inversion He. apply not_elem_of_nil. }
  destruct s as [|c s']; [inversion He; apply not_elem_of_nil|].
  simpl in Hlen. simpl in He. destruct (unescaped c) eqn:Hu.
  { destruct (encodeURIComponent s') as [r|] eqn:Hr; [|done].
    inversion He; subst. apply not_elem_of_cons. split.
    - intros <-. discriminate.
    - apply (IH s'); (done || lia). }
  destruct (is_lead_surrogate c).
  { destruct s' as [|d s'']; [done|].
    destruct (is_trail_surrogate d); [|done].
    destruct (encodeURIComponent s'') as [r|] eqn:Hr; [|done].
    inversion He; subst. apply not_elem_of_app. split.
    - apply percent_no_semicolon.
    - apply (IH s''); (done || simpl in Hlen; lia). }
  destruct (is_trail_surrogate c); [done|].
  destruct (encodeURIComponent s') as [r|] eqn:Hr; [|done].
  inversion He; subst. apply not_elem_of_app. split.
  - apply percent_no_semicolon.
  - apply (IH s'); (done || lia).
Qed.

Lemma encode_no_semicolon s e : encodeURIComponent s = Ok e -> 59 ∉ e.
Proof. by apply (encode_no_semicolon_bounded (length s)). Qed.
End WellFormed.

(** ** Tokens *)

Section Tokens.
Local Open Scope N_scope.
Context (tc : TokenCodec) (cfg : Config).

Lemma base64url_unescaped c : base64url_unit c = true -> unescaped c = true.
Proof.
  unfold base64url_unit, unescaped, is_mark.
  destruct (is_alpha c); [done|]. destruct (is_digit c); [done|].
  cbn [orb]. intros H. apply orb_prop in H as [H|H];
    apply N.eqb_eq in H; by subst.
Qed.

Lemma base64url_no_dot s : forallb base64url_unit s = true -> 46 ∉ s.
Proof.
  intros H Hin. rewrite forallb_forall in H.
  apply list_elem_of_In, H in Hin. discriminate.
Qed.

Lemma base64url_all_unescaped s :
  forallb base64url_unit s = true -> Forall (fun c => unescaped c = true) s.
Proof.
  rewrite forallb_forall, Forall_forall. intros H c Hc.
  apply base64url_unescaped, H. by apply list_elem_of_In.
Qed.

Lemma signToken_split (L : CodecLaws tc) now payload :
  let p := encode_claims tc (issued_claims now payload) in
  let input := jose_header tc ++ js "." ++ p in
  signToken tc cfg now payload = input ++ js "." ++ mac tc (JWT_SECRET cfg) input
  /\ String_split 46 (signToken tc cfg now payload)
     = [jose_header tc; p; mac tc (JWT_SECRET cfg) input].
Proof.
  intros p input. split; [reflexivity|].
  unfold signToken, jwt_sign. cbn [expiresIn sign_issuer sign_audience].
  fold (issued_claims now payload). fold p. fold input.
  change (input ++ js "." ++ ?s) with (input ++ 46 :: s).
  rewrite String_split_app. unfold input.
  change (jose_header tc ++ js "." ++ p) with (jose_header tc ++ 46 :: p).
  rewrite String_split_app.
  rewrite !String_split_none; [done|apply base64url_no_dot..].
  - apply (mac_units tc L).
  - apply (claims_units tc L).
  - apply (header_units tc L).
Qed.

Lemma verify_sign (L : CodecLaws tc) now now' payload :
  (now' < now + JWT_EXPIRES_IN)%Z ->
  verifyToken tc cfg now' (signToken tc cfg now payload)
  = Ok (issued_claims now payload).
Proof.
  intros Hnow. unfold verifyToken, jwt_verify.
  destruct (signToken_split L now payload) as [_ ->].
  rewrite (header_accepted tc L), (claims_roundtrip tc L). cbn [negb].
  destruct (decide _) as [Hs|_]; [by apply (mac_nonempty tc L) in Hs|].
  change (jose_header tc ++ js "." ++ ?p) with (jose_header tc ++ 46 :: p).
  rewrite !bool_decide_eq_true_2 by done. cbn [negb claim_exp issued_claims].
  by rewrite (proj2 (Z.leb_gt _ _)) by lia.
Qed.

Lemma signToken_units (L : CodecLaws tc) now payload :
  Forall (fun c => unescaped c = true) (signToken tc cfg now payload)
  /\ signToken tc cfg now payload <> [].
Proof.
  destruct (signToken_split L now payload) as [-> _]. split.
  - repeat (apply Forall_app; split); try (by repeat constructor);
      apply base64url_all_unescaped.
    + apply (header_units tc L).
    + apply (claims_units tc L).
    + apply (mac_units tc L).
  - intros H. apply app_eq_nil in H as [_ H]. discriminate.
Qed.

Lemma verify_ok_inv now token c :
  verifyToken tc cfg now token = Ok c ->
  jwt_decode tc token = Some c /\ (now < claim_exp c)%Z
  /\ claim_iss c = js "web_test" /\ claim_aud c = js "web_test_frontend".
Proof.
  unfold verifyToken, jwt_verify, jwt_decode.
  destruct (String_split 46 token) as [|h [|p [|s [|??]]]]; try done.
  destruct (header_ok tc h); [|done]. cbn [negb].
  destruct (decode_claims tc p) as [c'|]; [|done].
  destruct (decide _); [done|].
  destruct (bool_decide (s = _)); [|done]. cbn [negb issuer audience].
  destruct (bool_decide (claim_iss c' = _)) eqn:Hi; [|done].
  destruct (bool_decide (claim_aud c' = _)) eqn:Ha; [|done]. cbn [negb].
  destruct (Z.leb_spec (claim_exp c') now); [done|].
  intros [= ->]. apply bool_decide_eq_true in Hi, Ha. done.
Qed.

Lemma verify_malformed now token :
  jwt_decode tc token = None -> is_ok (verifyToken tc cfg now token) = false.
Proof.
  unfold verifyToken, jwt_verify, jwt_decode.
  destruct (String_split 46 token) as [|h [|p [|s [|??]]]]; try done.
  destruct (header_ok tc h); [|done]. by intros ->.
Qed.

Lemma verify_forged now token h p s :
  String_split 46 token = [h; p; s] ->
  s <> mac tc (JWT_SECRET cfg) (h ++ js "." ++ p) ->
  is_ok (verifyToken tc cfg now token) = false.
Proof.
  intros Hsplit Hs. unfold verifyToken, jwt_verify. rewrite Hsplit.
  destruct (header_ok tc h); [|done]. cbn [negb].
  destruct (decode_claims tc p); [|done].
  destruct (decide _); [done|]. by rewrite bool_decide_eq_false_2.
Qed.

Lemma verify_expired now token c :
  jwt_decode tc token = Some c -> (claim_exp c <= now)%Z ->
  is_ok (verifyToken tc cfg now token) = false.
Proof.
  unfold verifyToken, jwt_verify, jwt_decode.
  destruct (String_split 46 token) as [|h [|p [|s [|??]]]]; try done.
  destruct (header_ok tc h); [|done]. intros -> Hexp. cbn [negb].
  destruct (decide _); [done|].
  repeat (match goal with
          | |- context [bool_decide ?P] => destruct (bool_decide P)
          end; cbn [negb]; [|done]).
  by rewrite (proj2 (Z.leb_le _ _)).
Qed.
End Tokens.

(** ** The reference instance satisfies the laws *)

Module ReferenceFacts.
Import Reference.
Local Open Scope N_scope.

Lemma dec_str_pos p : forall k r,
  dec_str k (enc_pos p ++ r)
  = '(t, r') ← dec_str id r; Some (Npos (k p) :: t, r').
Proof.
  induction p as [q IH|q IH|]; intros k r; simpl.
  - by rewrite IH.
  - by rewrite IH.
  - done.
Qed.

Lemma dec_str_N n r :
  dec_str id (enc_N n ++ r) = '(t, r') ← dec_str id r; Some (n :: t, r').
Proof. destruct n as [|p]; [done|]. apply dec_str_pos. Qed.

Lemma dec_enc_str s r : dec_str id (enc_str s ++ r) = Some (s, r).
Proof.
  unfold enc_str. induction s as [|n s IH]; [done|].
  cbn [flat_map]. rewrite <- !app_assoc, dec_str_N.
  rewrite app_assoc, IH. done.
Qed.

Lemma dec_enc_opt o r : dec_opt (enc_opt o ++ r) = Some (o, r).
Proof.
  destruct o as [s|]; [|done]. cbn [enc_opt app dec_opt].
  cbn [N.eqb Pos.eqb]. by rewrite dec_enc_str.
Qed.

Lemma dec_enc_Z z r : dec_Z (enc_Z z ++ r) = Some (z, r).
Proof.
  unfold enc_Z. cbn [app dec_Z].
  replace (enc_N (Z.abs_N z) ++ [95]) with (enc_str [Z.abs_N z])
    by (unfold enc_str; cbn [flat_map]; by rewrite app_nil_r).
  rewrite dec_enc_str. cbn.
  destruct (Z.ltb_spec z 0); cbn; do 2 f_equal; lia.
Qed.

Lemma dec_enc_claims c : dec_claims (enc_claims c) = Some c.
Proof.
  unfold enc_claims, dec_claims.
  rewrite dec_enc_str. cbn [mbind option_bind].
  rewrite dec_enc_str. cbn [mbind option_bind].
  rewrite dec_enc_opt. cbn [mbind option_bind].
  rewrite dec_enc_Z. cbn [mbind option_bind].
  rewrite dec_enc_Z. cbn [mbind option_bind].
  rewrite dec_enc_str. cbn [mbind option_bind].
  rewrite <- (app_nil_r (enc_str (claim_aud c))), dec_enc_str.
  cbn [mbind option_bind]. by destruct c.
Qed.

Lemma enc_pos_units p : forallb base64url_unit (enc_pos p) = true.
Proof. induction p; simpl; by rewrite ?IHp. Qed.

Lemma enc_N_units n : forallb base64url_unit (enc_N n) = true.
Proof. destruct n; [done|apply enc_pos_units]. Qed.

Lemma enc_str_units s : forallb base64url_unit (enc_str s) = true.
Proof.
  unfold enc_str. rewrite forallb_app. apply andb_true_iff. split; [|done].
  induction s as [|n s IH]; [done|]. cbn [flat_map].
  by rewrite forallb_app, enc_N_units, IH.
Qed.

Lemma enc_opt_units o : forallb base64url_unit (enc_opt o) = true.
Proof. destruct o; [|done]. cbn [enc_opt forallb]. by rewrite enc_str_units. Qed.

Lemma enc_Z_units z : forallb base64url_unit (enc_Z z) = true.
Proof.
  unfold enc_Z. cbn [forallb]. rewrite forallb_app, enc_N_units.
  by destruct (z <? 0)%Z.
Qed.

Lemma enc_claims_units c : forallb base64url_unit (enc_claims c) = true.
Proof.
  unfold enc_claims.
  by rewrite !forallb_app, !enc_str_units, !enc_Z_units, enc_opt_units.
Qed.

Lemma codec_laws : CodecLaws codec.
Proof.
  constructor; cbn [codec header_ok jose_header encode_claims decode_claims mac].
  - by apply bool_decide_eq_true_2.
  - apply dec_enc_claims.
  - reflexivity.
  - apply enc_claims_units.
  - intros. apply enc_str_units.
  - intros k i. unfold enc_str. intros H. apply app_eq_nil in H as [_ H].
    discriminate.
Qed.
End ReferenceFacts.

(** ** The handlers, path by path *)

Section Handlers.
Context (tc : TokenCodec) (ph : PasswordHasher) (cfg : Config).
Implicit Types (cookies : gmap jsstring jsstring) (db : Store) (now : Z).

Ltac run :=
  cbv [serve login me logout hbind lift call set_status set_header ret
       try_catch initial status headers calls].

Lemma falsy_false x : falsy x = false <-> exists c s, x = Some (c :: s).
Proof.
  destruct x as [[|c s]|]; simpl; split; try done; try (by intros (?&?&?)).
  eauto.
Qed.

Lemma me_missing now cookie cookies :
  parseCookies cookie = Ok cookies ->
  falsy (cookies !! AUTH_COOKIE) = true ->
  serve (me tc cfg now cookie)
  = (Reply 401 ∅ (error_body "Missing session cookie"), []).
Proof. intros Hp Hf. run. by rewrite Hp, Hf. Qed.

Lemma me_rejected now cookie cookies token :
  parseCookies cookie = Ok cookies ->
  cookies !! AUTH_COOKIE = Some token -> token <> [] ->
  is_ok (verifyToken tc cfg now token) = false ->
  serve (me tc cfg now cookie)
  = (Reply 401 ∅ (error_body "Invalid or expired session"),
     [VerifyToken token]).
Proof.
  intros Hp Ht Hne Hv. run. rewrite Hp, Ht.
  destruct token as [|c t]; [done|]. cbn [falsy default from_option id].
  by destruct (verifyToken tc cfg now (c :: t)).
Qed.

Lemma me_accepted now cookie cookies token c :
  parseCookies cookie = Ok cookies ->
  cookies !! AUTH_COOKIE = Some token -> token <> [] ->
  verifyToken tc cfg now token = Ok c ->
  serve (me tc cfg now cookie)
  = (Reply 200 ∅ (user_body (JStr (claim_sub c)) (claim_username c)
                    (claim_name c)),
     [VerifyToken token]).
Proof.
  intros Hp Ht Hne Hv. run. rewrite Hp, Ht.
  destruct token as [|x t]; [done|]. cbn [falsy default from_option id]. by rewrite Hv.
Qed.

Lemma me_sets_no_cookie now cookie :
  set_cookie (fst (serve (me tc cfg now cookie))) = None.
Proof.
  run. destruct (parseCookies cookie) as [cookies|]; [|done].
  destruct (falsy (cookies !! AUTH_COOKIE)); [done|].
  by destruct (verifyToken tc cfg now _).
Qed.

Lemma login_bad_request db now body :
  falsy (body ≫= username) || falsy (body ≫= password) = true ->
  serve (login tc ph cfg db now body)
  = (Reply 400 ∅ (error_body "Username and password are required"), []).
Proof.
  intros H. run.
  assert (falsy (username (default {| username := None; password := None |} body))
          || falsy (password (default {| username := None; password := None |} body))
          = true) as ->; [|done].
  by destruct body.
Qed.

Lemma login_unknown_user db now u p :
  u <> [] -> p <> [] -> pool_query db u = Ok [] ->
  serve (login tc ph cfg db now (request u p))
  = (Reply 401 ∅ (error_body "Invalid username or password"), [QueryUser u]).
Proof.
  intros Hu Hp Hq. run. cbn [request default from_option id username password].
  destruct u as [|? ?]; [done|]. destruct p as [|? ?]; [done|].
  cbn [falsy orb default from_option id]. by rewrite Hq.
Qed.

Lemma login_wrong_password db now u p row rest :
  u <> [] -> p <> [] -> pool_query db u = Ok (row :: rest) ->
  argon2_verify ph (row_password_hash row) p = Ok false ->
  serve (login tc ph cfg db now (request u p))
  = (Reply 401 ∅ (error_body "Invalid username or password"),
     [QueryUser u; VerifyPassword (row_password_hash row) p]).
Proof.
  intros Hu Hp Hq Hv. run. cbn [request default from_option id username password].
  destruct u as [|? ?]; [done|]. destruct p as [|? ?]; [done|].
  cbn [falsy orb default from_option id]. rewrite Hq. cbn [head]. by rewrite Hv.
Qed.

Lemma login_success db now u p row rest header :
  u <> [] -> p <> [] -> pool_query db u = Ok (row :: rest) ->
  argon2_verify ph (row_password_hash row) p = Ok true ->
  buildCookie AUTH_COOKIE (signToken tc cfg now (payload_of row))
    (cookieOptions cfg) = Ok header ->
  serve (login tc ph cfg db now (request u p))
  = (Reply 200 {[ "Set-Cookie" := header ]}
       (user_body (row_id row) (row_username row) (row_name row)),
     [QueryUser u; VerifyPassword (row_password_hash row) p;
      SignToken (payload_of row)]).
Proof.
  intros Hu Hp Hq Hv Hb. run. cbn [request default from_option id username password].
  destruct u as [|? ?]; [done|]. destruct p as [|? ?]; [done|].
  cbn [falsy orb default from_option id]. rewrite Hq. cbn [head]. rewrite Hv. cbn [negb].
  fold (payload_of row). by rewrite Hb.
Qed.

Lemma login_set_cookie db now body header :
  set_cookie (fst (serve (login tc ph cfg db now body))) = Some header ->
  exists token,
    buildCookie AUTH_COOKIE token (cookieOptions cfg) = Ok header.
Proof.
  run.
  destruct (falsy _ || falsy _); [done|].
  destruct (pool_query db _) as [[|row rest]|]; [done| |done]. cbn [head].
  destruct (argon2_verify ph _ _) as [[|]|]; [|done..]. cbn [negb].
  destruct (buildCookie _ _ _) as [h|] eqn:Hb; [|done].
  cbn [fst set_cookie]. rewrite lookup_insert_eq. intros [= <-]. eauto.
Qed.

Lemma logout_reply :
  exists header,
    buildCookie AUTH_COOKIE [] (clearCookieOptions cfg) = Ok header
    /\ serve (logout cfg)
       = (Reply 200 {[ "Set-Cookie" := header ]} (JObj [("success", JBool true)]),
          []).
Proof. eexists. split; reflexivity. Qed.
End Handlers.

Section Auxiliary.
Lemma code_units_spec s : code_units s = true -> Forall code_unit s.
Proof.
  unfold code_units. rewrite forallb_forall, Forall_forall. intros H c Hc.
  apply N.ltb_lt, H. by apply list_elem_of_In.
Qed.

Lemma bare_part p :
  (61%N ∉ String_trim p) ->
  cookie_key p = String_trim p /\ cookie_raw_value p = [].
Proof.
  intros H. unfold cookie_key, cookie_raw_value.
  by rewrite String_split_none.
Qed.

Lemma pool_query_match db u rows0 row :
  pool_query db u = Ok rows0 -> row ∈ rows0 -> row_username row = u.
Proof.
  unfold pool_query. destruct (reachable db); [|done]. intros [= <-] Hin.
  apply elem_of_take in Hin as (i & Hin & _).
  apply list_elem_of_lookup_2 in Hin.
  by apply list_elem_of_filter in Hin as [? _].
Qed.

Lemma falsy_some u : falsy (Some u) = false -> u <> [].
Proof. by destruct u. Qed.
End Auxiliary.


Section SetCookie.
Local Open Scope N_scope.

Lemma built_cookie token options header :
  buildCookie AUTH_COOKIE token options = Ok header ->
  exists e,
    encodeURIComponent token = Ok e
    /\ cookie_pair header = AUTH_COOKIE ++ 61 :: e
    /\ cookie_attributes header
       = map String_trim (flat_map (fun o => String_split 59 (32 :: o)) options).
Proof.
  unfold buildCookie.
  destruct (encodeURIComponent token) as [e|] eqn:He; cbn [bind]; [|done].
  intros Heq. exists e. split; [done|].
  assert (header = Array_join (js "; ") ((AUTH_COOKIE ++ 61 :: e) :: options))
    as -> by (injection Heq as <-; reflexivity).
  unfold cookie_pair, cookie_attributes. rewrite split_join.
  rewrite (String_split_none 59 (AUTH_COOKIE ++ 61 :: e)); [done|].
  rewrite elem_of_app, elem_of_cons. intros [H|[H|H]]; [|done|].
  - apply list_elem_of_In in H. vm_compute in H. intuition discriminate.
  - by apply encode_no_semicolon in He.
Qed.

Ltac member :=
  match goal with
  | |- _ ∈ _ => apply list_elem_of_In; vm_compute; tauto
  | |- _ ∉ _ =>
      let H := fresh in
      intros H; apply list_elem_of_In in H; vm_compute in H;
      intuition discriminate
  end.

Lemma active_attributes cfg token header :
  buildCookie AUTH_COOKIE token (cookieOptions cfg) = Ok header ->
  js "HttpOnly" ∈ cookie_attributes header
  /\ (js "Secure" ∈ cookie_attributes header <-> NODE_ENV cfg = js "production")
  /\ js "Max-Age=86400" ∈ cookie_attributes header
  /\ js "Max-Age=0" ∉ cookie_attributes header.
Proof.
  intros Hb. destruct (built_cookie _ _ _ Hb) as (e & _ & _ & ->).
  unfold cookieOptions.
  destruct (decide (NODE_ENV cfg = js "production")) as [Hprod|Hdev].
  - split; [member|]. split; [|split; member].
    split; [by intros _|intros _; member].
  - split; [member|]. split; [|split; member].
    split; [|done]. intros H. exfalso. apply list_elem_of_In in H.
    vm_compute in H. intuition discriminate.
Qed.

Lemma cleared_attributes cfg token header :
  buildCookie AUTH_COOKIE token (clearCookieOptions cfg) = Ok header ->
  js "HttpOnly" ∈ cookie_attributes header
  /\ (js "Secure" ∈ cookie_attributes header <-> NODE_ENV cfg = js "production")
  /\ js "Max-Age=0" ∈ cookie_attributes header
  /\ js "Max-Age=86400" ∉ cookie_attributes header.
Proof.
  intros Hb. destruct (built_cookie _ _ _ Hb) as (e & _ & _ & ->).
  unfold clearCookieOptions.
  destruct (decide (NODE_ENV cfg = js "production")) as [Hprod|Hdev].
  - split; [member|]. split; [|split; member].
    split; [by intros _|intros _; member].
  - split; [member|]. split; [|split; member].
    split; [|done]. intros H. exfalso. apply list_elem_of_In in H.
    vm_compute in H. intuition discriminate.
Qed.
End SetCookie.


(** * Properties of the specification *)

(** ** The cookie codec *)

(** C2, as the code has it: a header in which every named pair carries a
    decodable value is read into a mapping [m]; the empty name is never
    bound, and neither is [__proto__]; a pair is bound under its name to its
    decoded value when no later pair has the same name (the last occurrence
    wins), and a pair without [=] is bound to the empty string; a name no
    pair carries is absent. *)
Theorem parseCookies_mapping (h : jsstring) :
  forallb part_decodable (String_split 59 h) = true ->
  exists m,
    parseCookies (Some h) = Ok m
    /\ m !! [] = None
    /\ m !! js "__proto__" = None
    /\ (forall ps p qs,
          String_split 59 h = ps ++ p :: qs ->
          cookie_key p <> [] -> cookie_key p <> js "__proto__" ->
          Forall (fun q => cookie_key q <> cookie_key p) qs ->
          exists v, decodeURIComponent (cookie_raw_value p) = Ok v
                    /\ m !! cookie_key p = Some v
                    /\ ((61%N ∉ String_trim p) -> v = []))
    /\ (forall k, Forall (fun p => cookie_key p <> k) (String_split 59 h) ->
                  m !! k = None).
Proof.
  intros Hok. rewrite parseCookies_unfold.
  destruct (proj1 (loop_ok ∅ (String_split 59 h)) Hok) as [m Hm].
  exists m. split; [done|]. split; [|split; [|split]].
  - by rewrite (loop_lookup_empty _ _ _ Hm).
  - by rewrite (loop_lookup_proto _ _ _ Hm).
  - intros ps p qs Hsplit Hne Hproto Hlast. rewrite Hsplit in Hm.
    destruct (loop_last_wins _ _ _ _ _ Hne Hproto Hlast Hm) as (v & Hv & Hl).
    exists v. repeat split; [done..|].
    intros Hbare. destruct (bare_part p Hbare) as [_ Hraw].
    rewrite Hraw in Hv. by inversion Hv.
  - intros k Hk. by rewrite (loop_lookup_other _ _ _ _ Hk Hm).
Qed.

Lemma parseCookies_mapping_witness :
  exists m,
    parseCookies (Some (js "sid=1; theme; =x; __proto__=y; sid=a%3Bb")) = Ok m
    /\ m !! js "sid" = Some (js "a;b")
    /\ m !! js "theme" = Some []
    /\ m !! [] = None
    /\ m !! js "__proto__" = None.
Proof.
  destruct (parseCookies_mapping
              (js "sid=1; theme; =x; __proto__=y; sid=a%3Bb"))
    as (m & Hm & Hempty & Hproto & Hlast & _); [reflexivity|].
  exists m. split; [exact Hm|].
  split; [|split; [|split; [exact Hempty|exact Hproto]]].
  - destruct (Hlast [js "sid=1"; js " theme"; js " =x"; js " __proto__=y"]
                (js " sid=a%3Bb") [])
      as (v & Hv & Hl & _); [reflexivity|discriminate|discriminate|constructor|].
    vm_compute in Hv. injection Hv as <-. exact Hl.
  - destruct (Hlast [js "sid=1"] (js " theme")
                [js " =x"; js " __proto__=y"; js " sid=a%3Bb"])
      as (v & _ & Hl & Hb); [reflexivity|discriminate|discriminate| |].
    { repeat constructor; discriminate. }
    rewrite Hb in Hl; [exact Hl|].
    intros H%list_elem_of_In. vm_compute in H. intuition discriminate.
Defined.

(** C2, the input on which the claim fails: a pair without [=] is bound to
    the empty string instead of being skipped, and a malformed escape makes
    the call throw. *)
Lemma parseCookies_bare_name_kept :
  (exists m, parseCookies (Some (js "theme")) = Ok m
             /\ m !! js "theme" = Some [])
  /\ parseCookies (Some (js "a=%")) = Throw URIError.
Proof. split; [eexists; split; reflexivity|reflexivity]. Qed.

(** C3, as the code has it: for a name the loop reads back unchanged, a
    well-formed value and attributes that neither repeat the name nor carry a
    malformed escape, the value read from the built header is the value
    written, whatever units ([;], [=], non-ASCII) it contains. *)
Theorem cookie_roundtrip (name value : jsstring) (options : list jsstring) :
  cookie_name_ok name = true ->
  attributes_compatible name options = true ->
  code_units value = true ->
  isWellFormed value = true ->
  exists header m,
    buildCookie name value options = Ok header
    /\ parseCookies (Some header) = Ok m
    /\ m !! name = Some value.
Proof.
  intros Hname Hopts Hunits Hwf.
  destruct (encode_well_formed value Hwf) as [e He].
  assert (buildCookie name value options
          = Ok (Array_join (js "; ") ((name ++ js "=" ++ e) :: options))) as Hb.
  { unfold buildCookie. by rewrite He. }
  destruct (parse_build name value options _ Hname Hopts
              (code_units_spec _ Hunits) Hb) as (m & Hm & Hl).
  eauto.
Qed.

Lemma cookie_roundtrip_witness :
  exists header m,
    buildCookie AUTH_COOKIE (js "a;b=c d" ++ [233; 8364; 55357; 56832]%N)
      (cookieOptions Reference.production) = Ok header
    /\ parseCookies (Some header) = Ok m
    /\ m !! AUTH_COOKIE = Some (js "a;b=c d" ++ [233; 8364; 55357; 56832]%N).
Proof.
  apply (cookie_roundtrip AUTH_COOKIE
           (js "a;b=c d" ++ [233; 8364; 55357; 56832]%N)
           (cookieOptions Reference.production)); reflexivity.
Defined.

(** C3, the input on which the claim fails: an attribute that repeats the
    cookie's name replaces the value. *)
Lemma cookie_attribute_shadows_value :
  exists header m,
    buildCookie (js "sid") (js "a;b") [js "sid=x"] = Ok header
    /\ parseCookies (Some header) = Ok m
    /\ m !! js "sid" = Some (js "x")
    /\ m !! js "sid" <> Some (js "a;b").
Proof.
  eexists. eexists. split; [reflexivity|]. split; [reflexivity|].
  split; [reflexivity|]. vm_compute. discriminate.
Qed.

(** ** POST /api/login *)

(** C7: when the username or the password is missing or empty, the handler
    answers 400 with an error body and has called neither the store nor the
    verifier. *)
Theorem login_requires_both_fields (tc : TokenCodec) (ph : PasswordHasher)
    (cfg : Config) (db : Store) (now : Z) (body : option LoginBody) :
  body ≫= username = None \/ body ≫= username = Some []
  \/ body ≫= password = None \/ body ≫= password = Some [] ->
  serve (login tc ph cfg db now body)
  = (Reply 400 ∅ (error_body "Username and password are required"), []).
Proof.
  intros H. apply login_bad_request.
  destruct H as [ -> | [ -> | [ -> | -> ] ] ]; cbn [falsy];
    by rewrite ?orb_true_r.
Qed.

Lemma login_requires_both_fields_witness :
  serve (login Reference.codec Reference.hasher Reference.development
           Reference.db 1000
           (Some {| username := Some (js "alice"); password := Some [] |}))
  = (Reply 400 ∅ (error_body "Username and password are required"), []).
Proof.
  apply (login_requires_both_fields Reference.codec Reference.hasher
           Reference.development Reference.db 1000
           (Some {| username := Some (js "alice"); password := Some [] |})).
  right. right. right. reflexivity.
Defined.

(** C6: with both fields present, the reply to a username that has no
    record and the reply to a username whose record rejects the password are
    the same 401 "Invalid username or password". *)
Theorem login_failures_indistinguishable (tc : TokenCodec)
    (ph : PasswordHasher) (cfg : Config) (db db' : Store) (now now' : Z)
    (u p u' p' : jsstring) (row : UserRow) :
  falsy (Some u) = false -> falsy (Some p) = false ->
  falsy (Some u') = false -> falsy (Some p') = false ->
  pool_query db u = Ok [] ->
  pool_query db' u' = Ok [row] ->
  argon2_verify ph (row_password_hash row) p' = Ok false ->
  fst (serve (login tc ph cfg db now (request u p)))
  = fst (serve (login tc ph cfg db' now' (request u' p')))
  /\ fst (serve (login tc ph cfg db now (request u p)))
     = Reply 401 ∅ (error_body "Invalid username or password").
Proof.
  intros Hu Hp Hu' Hp' Hnone Hsome Hbad.
  rewrite (login_unknown_user tc ph cfg db now u p)
    by (done || by apply falsy_some).
  rewrite (login_wrong_password tc ph cfg db' now' u' p' row [])
    by (done || by apply falsy_some).
  done.
Qed.

Lemma login_failures_indistinguishable_witness :
  fst (serve (login Reference.codec Reference.hasher Reference.development
                Reference.db 1000 (request (js "bob") (js "x"))))
  = fst (serve (login Reference.codec Reference.hasher Reference.development
                  Reference.db 1000 (request (js "alice") (js "wrong"))))
  /\ fst (serve (login Reference.codec Reference.hasher Reference.development
                   Reference.db 1000 (request (js "bob") (js "x"))))
     = Reply 401 ∅ (error_body "Invalid username or password").
Proof.
  apply (login_failures_indistinguishable Reference.codec Reference.hasher
           Reference.development Reference.db Reference.db 1000 1000
           (js "bob") (js "x") (js "alice") (js "wrong") Reference.alice);
    reflexivity.
Defined.



(** ** Set-Cookie headers, and login followed by identify *)

(** C8: a [Set-Cookie] header set by login carries [HttpOnly] and
    [Max-Age=86400], the one set by logout carries [HttpOnly] and
    [Max-Age=0]; either carries [Secure] exactly when [NODE_ENV] is
    "production"; the identify handler sets none. *)
Theorem set_cookie_attributes (tc : TokenCodec) (ph : PasswordHasher)
    (cfg : Config) :
  (forall db now body header,
     set_cookie (fst (serve (login tc ph cfg db now body))) = Some header ->
     js "HttpOnly" ∈ cookie_attributes header
     /\ (js "Secure" ∈ cookie_attributes header
         <-> NODE_ENV cfg = js "production")
     /\ js "Max-Age=86400" ∈ cookie_attributes header
     /\ js "Max-Age=0" ∉ cookie_attributes header)
  /\ (exists header,
        set_cookie (fst (serve (logout cfg))) = Some header
        /\ js "HttpOnly" ∈ cookie_attributes header
        /\ (js "Secure" ∈ cookie_attributes header
            <-> NODE_ENV cfg = js "production")
        /\ js "Max-Age=0" ∈ cookie_attributes header
        /\ js "Max-Age=86400" ∉ cookie_attributes header)
  /\ (forall now cookie,
        set_cookie (fst (serve (me tc cfg now cookie))) = None).
Proof.
  split; [|split].
  - intros db now body header Hs.
    destruct (login_set_cookie tc ph cfg db now body header Hs) as [token Hb].
    by apply (active_attributes cfg token).
  - destruct (logout_reply cfg) as (header & Hb & Hs). exists header.
    rewrite Hs. cbn [fst set_cookie]. rewrite lookup_singleton_eq.
    split; [done|]. by apply (cleared_attributes cfg []).
  - apply me_sets_no_cookie.
Qed.

Lemma set_cookie_attributes_witness :
  exists header,
    set_cookie (fst (serve (login Reference.codec Reference.hasher
                              Reference.production Reference.db 1000
                              (request (js "alice") (js "correct-pw")))))
    = Some header
    /\ js "HttpOnly" ∈ cookie_attributes header
    /\ js "Secure" ∈ cookie_attributes header
    /\ js "Max-Age=86400" ∈ cookie_attributes header.
Proof.
  eexists. split; [vm_compute; reflexivity|].
  destruct (proj1 (set_cookie_attributes Reference.codec Reference.hasher
                     Reference.production)
              Reference.db 1000%Z (request (js "alice") (js "correct-pw")) _
              ltac:(vm_compute; reflexivity)) as (H1 & H2 & H3 & _).
  split; [exact H1|]. split; [|exact H3]. apply H2. reflexivity.
Defined.

(** C4, as the code has it: after a login with credentials that match a
    stored record, presenting the issued cookie before it expires returns
    the record's username and the string form of the record's id; the login
    reply itself carries the id as the store holds it. *)
Theorem login_then_identify (tc : TokenCodec) (ph : PasswordHasher)
    (cfg : Config) (db : Store) (t0 t1 : Z) (u p : jsstring) (row : UserRow) :
  CodecLaws tc ->
  falsy (Some u) = false -> falsy (Some p) = false ->
  pool_query db u = Ok [row] ->
  argon2_verify ph (row_password_hash row) p = Ok true ->
  (t1 < t0 + 86400)%Z ->
  exists header,
    fst (serve (login tc ph cfg db t0 (request u p)))
    = Reply 200 {[ "Set-Cookie" := header ]}
        (user_body (row_id row) (row_username row) (row_name row))
    /\ row_username row = u
    /\ fst (serve (me tc cfg t1 (Some (cookie_pair header))))
       = Reply 200 ∅
           (user_body (JStr (String_of (row_id row))) (row_username row)
              (row_name row))
    /\ (forall s, row_id row = JStr s -> JStr (String_of (row_id row)) = row_id row).
Proof.
  intros L Hu Hp Hq Hv Ht.
  set (token := signToken tc cfg t0 (payload_of row)).
  destruct (signToken_units tc cfg L t0 (payload_of row)) as [Hunits Hne].
  fold token in Hunits, Hne.
  pose proof (encode_unescaped token Hunits) as Henc.
  assert (exists header,
            buildCookie AUTH_COOKIE token (cookieOptions cfg) = Ok header)
    as [header Hb].
  { unfold buildCookie. rewrite Henc. eauto. }
  exists header. split; [|split; [|split]]; [| | |by intros s ->].
  - by rewrite (login_success tc ph cfg db t0 u p row [] header)
      by (done || by apply falsy_some).
  - apply (pool_query_match db u [row]); [done|by apply list_elem_of_here].
  - destruct (built_cookie _ _ _ Hb) as (e & He & -> & _).
    assert (e = token) as -> by congruence.
    destruct (parse_build AUTH_COOKIE token [] (AUTH_COOKIE ++ 61%N :: token))
      as (m & Hm & Hl); [done|done| | |].
    { eapply Forall_impl; [exact Hunits|]. apply unescaped_code_unit. }
    { unfold buildCookie. by rewrite Henc. }
    rewrite (me_accepted tc cfg t1 _ m token
               (issued_claims t0 (payload_of row)) Hm Hl Hne).
    + done.
    + apply verify_sign; [done|]. unfold JWT_EXPIRES_IN. lia.
Qed.

Lemma login_then_identify_witness :
  exists header,
    fst (serve (login Reference.codec Reference.hasher Reference.development
                  Reference.db 1000 (request (js "alice") (js "correct-pw"))))
    = Reply 200 {[ "Set-Cookie" := header ]}
        (user_body (JNum 1) (js "alice") None)
    /\ js "alice" = js "alice"
    /\ fst (serve (me Reference.codec Reference.development 87399
                     (Some (cookie_pair header))))
       = Reply 200 ∅ (user_body (JStr (js "1")) (js "alice") None)
    /\ (forall s, JNum 1 = JStr s -> JStr (js "1") = JNum 1).
Proof.
  apply (login_then_identify Reference.codec Reference.hasher
           Reference.development Reference.db 1000 87399
           (js "alice") (js "correct-pw") Reference.alice);
    [exact ReferenceFacts.codec_laws | reflexivity | reflexivity
    | reflexivity | vm_compute; reflexivity | lia].
Defined.

(** C4, the input on which the claim fails: the record's id is the number 1,
    the login reply carries the number and the identify reply the string. *)
Lemma login_identify_id_differs :
  let r := fst (serve (login Reference.codec Reference.hasher
                         Reference.development Reference.db 1000
                         (request (js "alice") (js "correct-pw")))) in
  (exists hs, r = Reply 200 hs (user_body (JNum 1) (js "alice") None))
  /\ fst (serve (me Reference.codec Reference.development 1001
                   (cookie_pair <$> set_cookie r)))
     = Reply 200 ∅ (user_body (JStr (js "1")) (js "alice") None)
  /\ JNum 1 <> JStr (js "1").
Proof.
  split; [eexists; vm_compute; reflexivity|].
  split; [vm_compute; reflexivity|discriminate].
Qed.

(** ** GET /api/me *)

(** C1, as the code has it: when the cookie header decodes and the session
    cookie it carries -- the last pair named [auth_token] -- holds a
    non-empty token that is malformed, carries a signature other than the
    one the server's secret gives, or has expired, the reply is 401 "Invalid
    or expired session", the same reply in the three cases; when the header
    decodes and has no pair named [auth_token], or there is no header, the
    reply is 401 as well, with the body "Missing session cookie". *)
Theorem identify_rejections (tc : TokenCodec) (cfg : Config) (now : Z) :
  (forall h ps p qs token,
     forallb part_decodable (String_split 59 h) = true ->
     String_split 59 h = ps ++ p :: qs ->
     cookie_key p = AUTH_COOKIE ->
     Forall (fun q => cookie_key q <> AUTH_COOKIE) qs ->
     decodeURIComponent (cookie_raw_value p) = Ok token ->
     token <> [] ->
     (jwt_decode tc token = None
      \/ (exists hd pl sg,
            String_split 46 token = [hd; pl; sg]
            /\ sg <> mac tc (JWT_SECRET cfg) (hd ++ js "." ++ pl))
      \/ (exists c, jwt_decode tc token = Some c /\ (claim_exp c <= now)%Z)) ->
     serve (me tc cfg now (Some h))
     = (Reply 401 ∅ (error_body "Invalid or expired session"),
        [VerifyToken token]))
  /\ (forall h,
        forallb part_decodable (String_split 59 h) = true ->
        Forall (fun q => cookie_key q <> AUTH_COOKIE) (String_split 59 h) ->
        serve (me tc cfg now (Some h))
        = (Reply 401 ∅ (error_body "Missing session cookie"), []))
  /\ serve (me tc cfg now None)
     = (Reply 401 ∅ (error_body "Missing session cookie"), []).
Proof.
  split; [|split; [|reflexivity]].
  - intros h ps p qs token Hok Hsplit Hkey Hqs Hv Hne Hbad.
    destruct (session_cookie_read h ps p qs token Hok Hsplit Hkey Hqs Hv)
      as (m & Hm & Hl).
    apply (me_rejected tc cfg now (Some h) m token Hm Hl Hne).
    destruct Hbad as [Hmal|[(hd & pl & sg & Hsp & Hs)|(c & Hc & Hexp)]].
    + by apply verify_malformed.
    + by apply (verify_forged tc cfg now token hd pl sg).
    + by apply (verify_expired tc cfg now token c).
  - intros h Hok Hno.
    destruct (session_cookie_absent h Hok Hno) as (m & Hm & Hl).
    apply (me_missing tc cfg now (Some h) m Hm). by rewrite Hl.
Qed.

Lemma identify_rejections_witness :
  serve (me Reference.codec Reference.development 1000
           (Some (js "auth_token=old; theme=dark; auth_token=not.a.token")))
  = (Reply 401 ∅ (error_body "Invalid or expired session"),
     [VerifyToken (js "not.a.token")])
  /\ serve (me Reference.codec Reference.development 1000
              (Some (js "theme=dark")))
     = (Reply 401 ∅ (error_body "Missing session cookie"), [])
  /\ serve (me Reference.codec Reference.development 1000 None)
     = (Reply 401 ∅ (error_body "Missing session cookie"), []).
Proof.
  destruct (identify_rejections Reference.codec Reference.development 1000)
    as (Hbad & Hnone & Hno).
  split; [|split; [|exact Hno]].
  - apply (Hbad (js "auth_token=old; theme=dark; auth_token=not.a.token")
             [js "auth_token=old"; js " theme=dark"]
             (js " auth_token=not.a.token") [] (js "not.a.token"));
      [reflexivity | reflexivity | reflexivity | constructor
      | reflexivity | discriminate | left; reflexivity].
  - apply (Hnone (js "theme=dark")); [reflexivity|].
    repeat constructor. discriminate.
Defined.

(** C1, the inputs on which the claim fails: without a cookie the body is
    "Missing session cookie", not "Invalid or expired session"; and a
    malformed token next to a cookie that does not decode gets no 401 at
    all, the handler throws. *)
Lemma identify_without_cookie_differs :
  fst (serve (me Reference.codec Reference.development 1000 None))
  = Reply 401 ∅ (error_body "Missing session cookie")
  /\ fst (serve (me Reference.codec Reference.development 1000 None))
     <> Reply 401 ∅ (error_body "Invalid or expired session")
  /\ serve (me Reference.codec Reference.development 1000
              (Some (js "auth_token=not.a.token; lang=%E0%A4")))
     = (Fault URIError, []).
Proof.
  split; [reflexivity|]. split; [|reflexivity]. vm_compute. discriminate.
Qed.

(** C9: a token whose expiry claim is at or before the current time fails
    verification, the boundary [exp = now] included, and the handler
    answers 401; a token that verifies has its expiry strictly after the
    current time. *)
Theorem expired_token_rejected (tc : TokenCodec) (cfg : Config) (now : Z)
    (cookie : option jsstring) (cookies : gmap jsstring jsstring)
    (token : jsstring) (c : Claims) :
  parseCookies cookie = Ok cookies ->
  cookies !! AUTH_COOKIE = Some token ->
  jwt_decode tc token = Some c ->
  (claim_exp c <= now)%Z ->
  is_ok (verifyToken tc cfg now token) = false
  /\ serve (me tc cfg now cookie)
     = (Reply 401 ∅ (error_body "Invalid or expired session"),
        [VerifyToken token])
  /\ (forall now' c', verifyToken tc cfg now' token = Ok c' ->
                      (now' < claim_exp c')%Z).
Proof.
  intros Hp Ht Hc Hexp.
  pose proof (verify_expired tc cfg now token c Hc Hexp) as Hv.
  split; [done|]. split.
  - apply (me_rejected tc cfg now cookie cookies token Hp Ht); [|done].
    intros ->. discriminate.
  - intros now' c' Hok. by destruct (verify_ok_inv tc cfg now' token c' Hok)
      as (_ & ? & _).
Qed.

Lemma expired_token_rejected_witness :
  let token := signToken Reference.codec Reference.development 1000
                 {| payload_sub := js "1"; payload_username := js "alice";
                    payload_name := None |} in
  is_ok (verifyToken Reference.codec Reference.development 87400 token) = false
  /\ serve (me Reference.codec Reference.development 87400
              (Some (js "auth_token=" ++ token)))
     = (Reply 401 ∅ (error_body "Invalid or expired session"),
        [VerifyToken token])
  /\ (forall now' c',
        verifyToken Reference.codec Reference.development now' token = Ok c' ->
        (now' < claim_exp c')%Z).
Proof.
  intros token.
  apply (expired_token_rejected Reference.codec Reference.development 87400
           (Some (js "auth_token=" ++ token)) {[ AUTH_COOKIE := token ]} token
           (issued_claims 1000 {| payload_sub := js "1";
                                  payload_username := js "alice";
                                  payload_name := None |}));
    [vm_compute; reflexivity | reflexivity | vm_compute; reflexivity | ].
  vm_compute. discriminate.
Defined.

(** C10, as the code has it: when the cookie header decodes and its last
    pair named [auth_token] has an empty value, the handler answers 401
    "Missing session cookie" and makes no call to the token library; the
    pair of the cookie that logout sets, sent back alone, is such a
    header. *)
Theorem empty_session_cookie_is_missing (tc : TokenCodec) (cfg : Config)
    (now : Z) (h : jsstring) (ps : list jsstring) (p : jsstring)
    (qs : list jsstring) :
  forallb part_decodable (String_split 59 h) = true ->
  String_split 59 h = ps ++ p :: qs ->
  cookie_key p = AUTH_COOKIE ->
  cookie_raw_value p = [] ->
  Forall (fun q => cookie_key q <> AUTH_COOKIE) qs ->
  serve (me tc cfg now (Some h))
  = (Reply 401 ∅ (error_body "Missing session cookie"), [])
  /\ exists header,
       set_cookie (fst (serve (logout cfg))) = Some header
       /\ cookie_pair header = js "auth_token="
       /\ serve (me tc cfg now (Some (cookie_pair header)))
          = (Reply 401 ∅ (error_body "Missing session cookie"), []).
Proof.
  intros Hok Hsplit Hkey Hraw Hqs. split.
  - destruct (session_cookie_read h ps p qs [] Hok Hsplit Hkey Hqs)
      as (m & Hm & Hl); [by rewrite Hraw|].
    apply (me_missing tc cfg now (Some h) m Hm). by rewrite Hl.
  - destruct (logout_reply cfg) as (header & Hb & Hs).
    exists header. rewrite Hs. cbn [fst set_cookie].
    rewrite lookup_singleton_eq. split; [done|].
    assert (cookie_pair header = js "auth_token=") as ->.
    { unfold buildCookie in Hb. cbn [encodeURIComponent bind] in Hb.
      injection Hb as <-. unfold clearCookieOptions.
      by destruct (decide (NODE_ENV cfg = js "production")). }
    split; [done|]. by apply (me_missing tc cfg now _ {[ AUTH_COOKIE := [] ]}).
Qed.

Lemma empty_session_cookie_is_missing_witness :
  serve (me Reference.codec Reference.production 1000
           (Some (js "auth_token=not.a.token; auth_token=; theme=dark")))
  = (Reply 401 ∅ (error_body "Missing session cookie"), []).
Proof.
  apply (empty_session_cookie_is_missing Reference.codec Reference.production
           1000 (js "auth_token=not.a.token; auth_token=; theme=dark")
           [js "auth_token=not.a.token"] (js " auth_token=")
           [js " theme=dark"]);
    [reflexivity | reflexivity | reflexivity | reflexivity | ].
  repeat constructor. discriminate.
Defined.

(** C10, the inputs on which the claim fails: both headers contain the pair
    [auth_token=]; next to a cookie that does not decode the handler throws,
    and before a later [auth_token] pair it is the later token that is read
    and handed to the token library. *)
Lemma empty_session_cookie_not_always_missing :
  js "auth_token=" ∈ String_split 59 (js "auth_token=; pref=%ZZ")
  /\ serve (me Reference.codec Reference.development 1000
              (Some (js "auth_token=; pref=%ZZ")))
     = (Fault URIError, [])
  /\ js "auth_token="
     ∈ String_split 59 (js "auth_token=; auth_token=not.a.token")
  /\ serve (me Reference.codec Reference.development 1000
              (Some (js "auth_token=; auth_token=not.a.token")))
     = (Reply 401 ∅ (error_body "Invalid or expired session"),
        [VerifyToken (js "not.a.token")]).
Proof.
  split; [|split; [reflexivity|split; [|reflexivity]]];
    apply list_elem_of_In; vm_compute; tauto.
Qed.

(** * Further properties of the code *)

(** ** More on the cookie codec *)

Section CookieMore.
Local Open Scope N_scope.
Implicit Types (m a : gmap jsstring jsstring) (k p : jsstring).

Lemma assign_union a m k v : assign (a ∪ m) k v = assign a k v ∪ m.
Proof.
  unfold assign. destruct (decide _); [done|]. by rewrite insert_union_l.
Qed.

Lemma step_union a a1 m p :
  parseCookies_step a p = Ok a1 ->
  parseCookies_step (a ∪ m) p = Ok (a1 ∪ m).
Proof.
  unfold parseCookies_step.
  destruct (decide (cookie_key p = [])) as [Hk|Hk]; [by intros [= <-]|].
  destruct (decodeURIComponent (cookie_raw_value p)) as [v|]; cbn [bind];
    [|done].
  intros [= <-]. by rewrite assign_union.
Qed.

Lemma loop_union ps : forall a a' m,
  parseCookies_loop a ps = Ok a' ->
  parseCookies_loop (a ∪ m) ps = Ok (a' ∪ m).
Proof.
  induction ps as [|p ps IH]; intros a a' m; cbn [parseCookies_loop].
  { by intros [= <-]. }
  destruct (parseCookies_step a p) as [a1|] eqn:Hs; cbn [bind]; [|done].
  rewrite (step_union _ _ m _ Hs). cbn [bind]. apply IH.
Qed.

Lemma loop_from m ps m0 :
  parseCookies_loop ∅ ps = Ok m0 -> parseCookies_loop m ps = Ok (m0 ∪ m).
Proof.
  intros H. rewrite <- (left_id_L ∅ (∪) m) at 1. by apply loop_union.
Qed.

Lemma loop_sound ps : forall m m' k v,
  parseCookies_loop m ps = Ok m' -> m' !! k = Some v ->
  m !! k = Some v
  \/ exists p, p ∈ ps /\ cookie_key p = k /\ k <> []
               /\ decodeURIComponent (cookie_raw_value p) = Ok v.
Proof.
  induction ps as [|p ps IH]; intros m m' k v; simpl.
  { intros [= <-]. by left. }
  destruct (parseCookies_step m p) as [m1|] eqn:Hs; cbn [bind]; [|done].
  intros Hl Hk. destruct (IH _ _ _ _ Hl Hk) as [H1|(q & Hq & ?)].
  2:{ right. exists q. split; [by apply elem_of_cons; right|done]. }
  unfold parseCookies_step in Hs.
  destruct (decide (cookie_key p = [])) as [He|He].
  { injection Hs as <-. by left. }
  destruct (decodeURIComponent (cookie_raw_value p)) as [x|] eqn:Hd;
    cbn [bind] in Hs; [|done].
  injection Hs as <-. unfold assign in H1.
  destruct (decide (cookie_key p = js "__proto__")); [by left|].
  destruct (decide (cookie_key p = k)) as [<-|Hne].
  - rewrite lookup_insert_eq in H1. injection H1 as ->.
    right. exists p. split; [apply list_elem_of_here|done].
  - rewrite lookup_insert_ne in H1 by done. by left.
Qed.

Lemma Array_join_cons sep p ps :
  Array_join sep (p :: ps) = p ++ flat_map (fun o => sep ++ o) ps.
Proof.
  revert p. induction ps as [|q ps IH]; intros p.
  - cbn. by rewrite app_nil_r.
  - change (Array_join sep (p :: q :: ps))
      with (p ++ sep ++ Array_join sep (q :: ps)).
    rewrite IH. cbn [flat_map]. by rewrite <- app_assoc.
Qed.
Lemma join_split sep s : Array_join [sep] (String_split sep s) = s.
Proof.
  induction s as [|c s IH]; [done|]. cbn [String_split].
  destruct (String_split sep s) as [|q qs] eqn:Hs.
  { by apply String_split_nonempty in Hs. }
  rewrite Array_join_cons in IH.
  destruct (c =? sep) eqn:Hc.
  - apply N.eqb_eq in Hc as ->. rewrite Array_join_cons.
    cbn [flat_map app] in *. by rewrite IH.
  - rewrite Array_join_cons. cbn [flat_map app] in *. by rewrite IH.
Qed.

Lemma key_value_at_first_equals p k v :
  String_trim p = k ++ 61 :: v -> (61 ∉ k) ->
  cookie_key p = k /\ cookie_raw_value p = v.
Proof.
  intros Ht Hk. unfold cookie_key, cookie_raw_value.
  rewrite Ht, String_split_app, (String_split_none 61 k) by done.
  split; [done|]. cbn [app tl]. apply (join_split 61).
Qed.

End CookieMore.

Section TrimMore.
Local Open Scope N_scope.

Lemma trimStart_blank w s : blank w = true -> trimStart (w ++ s) = trimStart s.
Proof.
  induction w as [|c w IH]; [done|]. cbn [blank forallb].
  rewrite andb_true_iff. intros [Hc Hw]. cbn [app trimStart].
  rewrite Hc. by apply IH.
Qed.

Lemma blank_reverse w : blank (reverse w) = blank w.
Proof.
  unfold blank. induction w as [|c w IH]; [done|].
  rewrite reverse_cons, forallb_app, IH. cbn [forallb].
  by rewrite andb_true_r, andb_comm.
Qed.

Lemma trimEnd_blank s w : blank w = true -> trimEnd (s ++ w) = trimEnd s.
Proof.
  intros Hw. unfold trimEnd. rewrite reverse_app.
  by rewrite trimStart_blank by by rewrite blank_reverse.
Qed.

Lemma trimStart_nil_blank s : trimStart s = [] -> blank s = true.
Proof.
  induction s as [|c s IH]; [done|]. cbn [trimStart blank forallb].
  destruct (is_white_space c); [|done]. by apply IH.
Qed.

Lemma trimStart_app s w : trimStart s <> [] -> trimStart (s ++ w) = trimStart s ++ w.
Proof.
  induction s as [|c s IH]; [done|]. cbn [app trimStart].
  destruct (is_white_space c); [apply IH|done].
Qed.

Lemma blank_trimStart w : blank w = true -> trimStart w = [].
Proof.
  induction w as [|c w IH]; [done|]. cbn [blank forallb trimStart].
  rewrite andb_true_iff. intros [-> Hw]. by apply IH.
Qed.

Lemma String_trim_pad w1 s w2 :
  blank w1 = true -> blank w2 = true ->
  String_trim (w1 ++ s ++ w2) = String_trim s.
Proof.
  intros H1 H2. unfold String_trim. rewrite trimStart_blank by done.
  destruct (trimStart s) as [|c t] eqn:Hs.
  - rewrite trimStart_blank by by apply trimStart_nil_blank.
    by rewrite blank_trimStart.
  - rewrite trimStart_app by by rewrite Hs. rewrite Hs.
    by apply trimEnd_blank.
Qed.
End TrimMore.

Section CookieFacts.
Local Open Scope N_scope.
Implicit Types (m a : gmap jsstring jsstring) (k p : jsstring).

Lemma encode_throws_bounded n : forall s e,
  (length s <= n)%nat -> encodeURIComponent s = Throw e -> e = URIError.
Proof.
  induction n as [|n IH]; intros s e Hlen.
  { destruct s; [done|simpl in Hlen; lia]. }
  destruct s as [|c s']; [done|]. simpl in Hlen. cbn [encodeURIComponent].
  destruct (unescaped c).
  { destruct (encodeURIComponent s') eqn:Hr; cbn [bind]; [done|].
    intros [= <-]. apply (IH s'); [lia|done]. }
  destruct (is_lead_surrogate c).
  { destruct s' as [|d s'']; [congruence|].
    destruct (is_trail_surrogate d); [|congruence].
    destruct (encodeURIComponent s'') eqn:Hr; cbn [bind]; [done|].
    intros [= <-]. apply (IH s''); [simpl in Hlen; lia|done]. }
  destruct (is_trail_surrogate c); [congruence|].
  destruct (encodeURIComponent s') eqn:Hr; cbn [bind]; [done|].
  intros [= <-]. apply (IH s'); [lia|done].
Qed.

Lemma encode_throws s e : encodeURIComponent s = Throw e -> e = URIError.
Proof. by apply (encode_throws_bounded (length s)). Qed.
End CookieFacts.

(** X1: every binding of the mapping [parseCookies] returns comes from a
    pair of the header: the name is the pair's name, not empty and not
    [__proto__], and the value is the pair's decoded value. *)
Theorem parseCookies_bindings_come_from_pairs (h : jsstring)
    (m : gmap jsstring jsstring) (k v : jsstring) :
  parseCookies (Some h) = Ok m ->
  m !! k = Some v ->
  k <> [] /\ k <> js "__proto__"
  /\ exists p, p ∈ String_split 59 h /\ cookie_key p = k
               /\ decodeURIComponent (cookie_raw_value p) = Ok v.
Proof.
  rewrite parseCookies_unfold. intros Hm Hk.
  destruct (loop_sound _ _ _ _ _ Hm Hk) as [H|(p & Hp & Hkey & Hne & Hv)].
  { by rewrite lookup_empty in H. }
  split; [done|]. split; [|eauto].
  intros ->. by rewrite (loop_lookup_proto _ _ _ Hm), lookup_empty in Hk.
Qed.

Lemma parseCookies_bindings_come_from_pairs_witness :
  exists p, p ∈ String_split 59 (js "a=1; b=%32") /\ cookie_key p = js "b"
            /\ decodeURIComponent (cookie_raw_value p) = Ok (js "2").
Proof.
  apply (parseCookies_bindings_come_from_pairs (js "a=1; b=%32")
           (<[js "b" := js "2"]> {[ js "a" := js "1" ]}) (js "b") (js "2"));
    [vm_compute; reflexivity | reflexivity].
Defined.

(** X2: parsing two headers joined by [;] gives the union of the two
    mappings in which the bindings of the second header take priority. *)
Theorem parseCookies_append (h1 h2 : jsstring)
    (m1 m2 : gmap jsstring jsstring) :
  parseCookies (Some h1) = Ok m1 ->
  parseCookies (Some h2) = Ok m2 ->
  parseCookies (Some (h1 ++ js ";" ++ h2)) = Ok (m2 ∪ m1).
Proof.
  rewrite !parseCookies_unfold. intros H1 H2.
  change (h1 ++ js ";" ++ h2) with (h1 ++ 59%N :: h2).
  rewrite String_split_app, loop_app, H1. cbn [bind]. by apply loop_from.
Qed.

Lemma parseCookies_append_witness :
  parseCookies (Some (js "a=1; b=2" ++ js ";" ++ js "b=3; c=4"))
  = Ok (<[js "c" := js "4"]> {[ js "b" := js "3" ]}
        ∪ <[js "b" := js "2"]> {[ js "a" := js "1" ]}).
Proof.
  apply (parseCookies_append (js "a=1; b=2") (js "b=3; c=4"));
    vm_compute; reflexivity.
Defined.

(** X3: [parseCookies] throws exactly when some pair with a non-empty name
    carries a value that does not decode, and the error is then URIError. *)
Theorem parseCookies_throws (h : jsstring) (e : JsError) :
  parseCookies (Some h) = Throw e
  <-> e = URIError /\ forallb part_decodable (String_split 59 h) = false.
Proof.
  rewrite parseCookies_unfold. split.
  - intros H. split; [by apply loop_throws in H|].
    destruct (forallb _ _) eqn:Hok; [|done].
    apply (loop_ok ∅) in Hok as [m Hm]. congruence.
  - intros [-> Hbad].
    destruct (parseCookies_loop ∅ (String_split 59 h)) as [m|e] eqn:Hl.
    + assert (forallb part_decodable (String_split 59 h) = true)
        by (apply (loop_ok ∅); eauto). congruence.
    + by apply loop_throws in Hl as ->.
Qed.

Lemma parseCookies_throws_witness :
  parseCookies (Some (js "auth_token=abc; pref=%E0%A4")) = Throw URIError.
Proof.
  apply (proj2 (parseCookies_throws (js "auth_token=abc; pref=%E0%A4")
                  URIError)).
  split; reflexivity.
Defined.

(** X4: a header made of one pair is split at its first [=]: what follows,
    later [=] signs included, is the value, and white space around the pair
    is dropped. *)
Theorem parseCookies_single_pair (h k v x : jsstring) :
  (59%N ∉ h) ->
  String_trim h = k ++ js "=" ++ v ->
  (61%N ∉ k) -> k <> [] -> k <> js "__proto__" ->
  decodeURIComponent v = Ok x ->
  parseCookies (Some h) = Ok {[ k := x ]}.
Proof.
  intros Hsemi Htrim Heq Hne Hproto Hdec.
  rewrite parseCookies_unfold, String_split_none by done.
  cbn [parseCookies_loop].
  destruct (key_value_at_first_equals h k v Htrim Heq) as [Hk Hv].
  rewrite step_bind by by rewrite Hk. rewrite Hk, Hv, Hdec. cbn [bind].
  unfold assign. by destruct (decide _).
Qed.

Lemma parseCookies_single_pair_witness :
  parseCookies (Some (js "  token=YWJj==%3B ")) = Ok {[ js "token" := js "YWJj==;" ]}.
Proof.
  apply (parseCookies_single_pair (js "  token=YWJj==%3B ") (js "token")
           (js "YWJj==%3B") (js "YWJj==;"));
    [ | reflexivity | | discriminate | discriminate | reflexivity];
    intros H%list_elem_of_In; vm_compute in H; intuition discriminate.
Defined.

(** X5: white space before and after a part changes neither the name nor
    the value the loop reads from it, nor what the iteration does. *)
Theorem parseCookies_step_padding (m : gmap jsstring jsstring)
    (w1 p w2 : jsstring) :
  blank w1 = true -> blank w2 = true ->
  cookie_key (w1 ++ p ++ w2) = cookie_key p
  /\ cookie_raw_value (w1 ++ p ++ w2) = cookie_raw_value p
  /\ parseCookies_step m (w1 ++ p ++ w2) = parseCookies_step m p.
Proof.
  intros H1 H2. unfold parseCookies_step, cookie_key, cookie_raw_value.
  by rewrite String_trim_pad.
Qed.

Lemma parseCookies_step_padding_witness :
  cookie_key (js "  " ++ js "a =1" ++ [9; 160]%N) = js "a "
  /\ cookie_raw_value (js "  " ++ js "a =1" ++ [9; 160]%N) = js "1".
Proof.
  destruct (parseCookies_step_padding ∅ (js "  ") (js "a =1") [9; 160]%N)
    as (Hk & Hv & _); [reflexivity | reflexivity |].
  rewrite Hk, Hv. split; reflexivity.
Defined.

(** X6: [buildCookie] returns exactly when the value has no unpaired
    surrogate; the header is then the name, [=], the encoded value and each
    option after a [; ], in order; otherwise it throws URIError. *)
Theorem buildCookie_format (name value : jsstring) (options : list jsstring) :
  is_ok (buildCookie name value options) = isWellFormed value
  /\ (forall header, buildCookie name value options = Ok header ->
        exists e, encodeURIComponent value = Ok e
                  /\ header = name ++ js "=" ++ e
                              ++ flat_map (fun o => js "; " ++ o) options)
  /\ (forall err, buildCookie name value options = Throw err ->
        err = URIError).
Proof.
  unfold buildCookie. rewrite <- encode_ok.
  destruct (encodeURIComponent value) as [e|err0] eqn:He; cbn [bind is_ok].
  - split; [done|]. split; [|done]. intros header Heq. exists e.
    split; [done|].
    assert (header = Array_join (js "; ") ((name ++ js "=" ++ e) :: options))
      as -> by (injection Heq as <-; reflexivity).
    rewrite Array_join_cons. by rewrite <- !app_assoc.
  - split; [done|]. split; [done|]. intros err [= <-].
    by apply encode_throws in He.
Qed.

(** ** The request hook *)

(** X7: called with a context that has no [headers], the hook throws
    [TypeError] and leaves [set] as it was.  Called with a header object it
    does not throw, leaves the status alone, sets the two fixed allow
    headers, and sets [Access-Control-Allow-Origin] (to the configured
    origin) and [Access-Control-Allow-Credentials] exactly when the [origin]
    header is the configured origin; those two otherwise, and every other
    header always, stay as they were. *)
Theorem cors_headers (cfg : Config) (hdrs : option (gmap string jsstring))
    (ctx0 : Context) :
  match hdrs with
  | None =>
      exists msg, onRequest cfg hdrs ctx0 = (ctx0, Throw (TypeError msg))
  | Some hs =>
      let allowed := bool_decide (hs !! "origin" = Some (FRONTEND_ORIGIN cfg)) in
      exists ctx,
        onRequest cfg hdrs ctx0 = (ctx, Ok tt)
        /\ status ctx = status ctx0 /\ calls ctx = calls ctx0
        /\ headers ctx !! "Access-Control-Allow-Origin"
           = (if allowed then Some (FRONTEND_ORIGIN cfg)
              else headers ctx0 !! "Access-Control-Allow-Origin")
        /\ headers ctx !! "Access-Control-Allow-Credentials"
           = (if allowed then Some (js "true")
              else headers ctx0 !! "Access-Control-Allow-Credentials")
        /\ headers ctx !! "Access-Control-Allow-Methods"
           = Some (js "GET,POST,PUT,PATCH,DELETE,OPTIONS")
        /\ headers ctx !! "Access-Control-Allow-Headers"
           = Some (js "Content-Type, Authorization")
        /\ (forall k,
              k ∉ ["Access-Control-Allow-Origin";
                   "Access-Control-Allow-Credentials";
                   "Access-Control-Allow-Methods";
                   "Access-Control-Allow-Headers"]%string ->
              headers ctx !! k = headers ctx0 !! k)
  end.
Proof.
  destruct hdrs as [hs|]; [|by eexists].
  cbv zeta. destruct ctx0 as [st h0 cs].
  unfold onRequest, hbind, set_header, ret.
  destruct (decide (hs !! "origin" = Some (FRONTEND_ORIGIN cfg))) as [He|Hne].
  - rewrite bool_decide_eq_true_2 by done. rewrite He.
    cbn [default from_option id status headers calls].
    eexists. split; [reflexivity|]. cbn [status headers calls].
    split; [done|]. split; [done|].
    split; [by rewrite !lookup_insert_ne, lookup_insert_eq by done|].
    split; [by rewrite !lookup_insert_ne, lookup_insert_eq by done|].
    split; [by rewrite !lookup_insert_ne, lookup_insert_eq by done|].
    split; [by rewrite lookup_insert_eq|].
    intros k Hk. rewrite !lookup_insert_ne; [done|intros <-; apply Hk..].
    all: apply list_elem_of_In; cbn; tauto.
  - rewrite bool_decide_eq_false_2 by done.
    cbn [status headers calls].
    eexists. split; [reflexivity|]. cbn [status headers calls].
    split; [done|]. split; [done|].
    split; [by rewrite !lookup_insert_ne by done|].
    split; [by rewrite !lookup_insert_ne by done|].
    split; [by rewrite !lookup_insert_ne, lookup_insert_eq by done|].
    split; [by rewrite lookup_insert_eq|].
    intros k Hk. rewrite !lookup_insert_ne; [done|intros <-; apply Hk..].
    all: apply list_elem_of_In; cbn; tauto.
Qed.

Lemma cors_headers_witness :
  exists ctx,
    onRequest Reference.production
      (Some {[ "origin"%string := js "https://example.org.evil.example" ]})
      initial
    = (ctx, Ok tt)
    /\ headers ctx !! "Access-Control-Allow-Origin" = None
    /\ headers ctx !! "Access-Control-Allow-Credentials" = None
    /\ headers ctx !! "Access-Control-Allow-Methods"
       = Some (js "GET,POST,PUT,PATCH,DELETE,OPTIONS").
Proof.
  destruct (cors_headers Reference.production
              (Some {[ "origin"%string := js "https://example.org.evil.example" ]})
              initial)
    as (ctx & Hrun & _ & _ & Ho & Hc & Hm & _).
  exists ctx. split; [exact Hrun|].
  split; [exact Ho|]. split; [exact Hc|exact Hm].
Defined.

(** ** What the handlers never do *)

Section HandlerFacts.
Context (tc : TokenCodec) (ph : PasswordHasher) (cfg : Config).

Ltac run :=
  cbv [serve login me logout hbind lift call set_status set_header ret
       try_catch initial status headers calls].

Lemma verify_ok_signed now token c :
  verifyToken tc cfg now token = Ok c ->
  exists h p, String_split 46 token
              = [h; p; mac tc (JWT_SECRET cfg) (h ++ js "." ++ p)].
Proof.
  unfold verifyToken, jwt_verify.
  destruct (String_split 46 token) as [|h [|p [|s [|??]]]]; try done.
  destruct (header_ok tc h); [|done]. cbn [negb].
  destruct (decode_claims tc p) as [c'|]; [|done].
  destruct (decide _); [done|].
  destruct (bool_decide (s = _)) eqn:Hs; [|done].
  apply bool_decide_eq_true in Hs as ->. eauto.
Qed.

Lemma me_fault now cookie e :
  parseCookies cookie = Throw e ->
  serve (me tc cfg now cookie) = (Fault e, []).
Proof. intros H. run. by rewrite H. Qed.

Lemma me_200_inv now cookie hs body cs :
  serve (me tc cfg now cookie) = (Reply 200 hs body, cs) ->
  exists cookies token c,
    parseCookies cookie = Ok cookies
    /\ cookies !! AUTH_COOKIE = Some token
    /\ verifyToken tc cfg now token = Ok c
    /\ body = user_body (JStr (claim_sub c)) (claim_username c) (claim_name c)
    /\ hs = ∅ /\ cs = [VerifyToken token].
Proof.
  run. destruct (parseCookies cookie) as [cookies|]; [|done].
  destruct (cookies !! AUTH_COOKIE) as [[|x t]|] eqn:Ht;
    cbn [falsy default from_option id]; [done| |done].
  destruct (verifyToken tc cfg now (x :: t)) as [c|] eqn:Hv; [|done].
  intros [= <- <- <-]. exists cookies, (x :: t), c. done.
Qed.

Lemma login_200_inv db now body hs b cs :
  serve (login tc ph cfg db now body) = (Reply 200 hs b, cs) ->
  exists u p row header,
    body ≫= username = Some u /\ body ≫= password = Some p
    /\ u <> [] /\ p <> []
    /\ pool_query db u = Ok [row]
    /\ argon2_verify ph (row_password_hash row) p = Ok true
    /\ buildCookie AUTH_COOKIE (signToken tc cfg now (payload_of row))
         (cookieOptions cfg) = Ok header
    /\ hs = {[ "Set-Cookie" := header ]}
    /\ b = user_body (row_id row) (row_username row) (row_name row)
    /\ cs = [QueryUser u; VerifyPassword (row_password_hash row) p;
             SignToken (payload_of row)].
Proof.
  run. destruct body as [[[[|x u]|] [[|y p]|]]|];
    cbn [default from_option id username password falsy orb]; try done.
  destruct (pool_query db (x :: u)) as [[|row rest]|] eqn:Hq; cbn [head];
    [done| |done].
  destruct (argon2_verify ph _ _) as [[|]|] eqn:Hv; cbn [negb]; [|done..].
  fold (payload_of row).
  destruct (buildCookie _ _ _) as [header|] eqn:Hb; [|done].
  intros [= <- <- <-]. exists (x :: u), (y :: p), row, header.
  assert (rest = []) as ->.
  { unfold pool_query in Hq. destruct (reachable db); [|done].
    injection Hq as Hq. apply (f_equal length) in Hq.
    rewrite length_take in Hq. destruct rest; [done|].
    cbn [length] in Hq. lia. }
  repeat split; done.
Qed.

Lemma login_reply_inv db now body st hs b cs :
  serve (login tc ph cfg db now body) = (Reply st hs b, cs) ->
  (st = 200%Z /\ is_Some (hs !! "Set-Cookie"))
  \/ ((st = 400%Z \/ st = 401%Z) /\ hs = ∅ /\ exists msg, b = error_body msg).
Proof.
  run. destruct (falsy _ || falsy _).
  { intros [= <- <- <- _]. right. eauto. }
  destruct (pool_query db _) as [[|row rest]|]; cbn [head]; [|  |done].
  { intros [= <- <- <- _]. right. eauto. }
  destruct (argon2_verify ph _ _) as [[|]|]; cbn [negb]; [| |done].
  - destruct (buildCookie _ _ _) as [header|]; [|done].
    intros [= <- <- <- _]. left. split; [done|].
    rewrite lookup_insert_eq. eauto.
  - intros [= <- <- <- _]. right. eauto.
Qed.

Lemma login_store_fault db now u p e :
  u <> [] -> p <> [] -> pool_query db u = Throw e ->
  serve (login tc ph cfg db now (request u p)) = (Fault e, [QueryUser u]).
Proof.
  intros Hu Hp Hq. run. cbn [request default from_option id username password].
  destruct u as [|? ?]; [done|]. destruct p as [|? ?]; [done|].
  cbn [falsy orb]. by rewrite Hq.
Qed.

Lemma login_verifier_fault db now u p row rest e :
  u <> [] -> p <> [] -> pool_query db u = Ok (row :: rest) ->
  argon2_verify ph (row_password_hash row) p = Throw e ->
  serve (login tc ph cfg db now (request u p))
  = (Fault e, [QueryUser u; VerifyPassword (row_password_hash row) p]).
Proof.
  intros Hu Hp Hq Hv. run.
  cbn [request default from_option id username password].
  destruct u as [|? ?]; [done|]. destruct p as [|? ?]; [done|].
  cbn [falsy orb]. rewrite Hq. cbn [head]. by rewrite Hv.
Qed.
End HandlerFacts.

(** X8: a 200 from the identify handler means the session cookie held a
    token that carries the signature the server's secret gives, has the
    expected issuer and audience and has not expired; the body is read off
    that token's claims, no header is set and the only call is the
    verification. *)
Theorem identity_only_for_verified_token (tc : TokenCodec) (cfg : Config)
    (now : Z) (cookie : option jsstring) (hs : gmap string jsstring)
    (body : Json) (cs : list Call) :
  serve (me tc cfg now cookie) = (Reply 200 hs body, cs) ->
  exists cookies token c h p,
    parseCookies cookie = Ok cookies
    /\ cookies !! AUTH_COOKIE = Some token
    /\ String_split 46 token
       = [h; p; mac tc (JWT_SECRET cfg) (h ++ js "." ++ p)]
    /\ jwt_decode tc token = Some c
    /\ (now < claim_exp c)%Z
    /\ claim_iss c = js "web_test" /\ claim_aud c = js "web_test_frontend"
    /\ body = user_body (JStr (claim_sub c)) (claim_username c) (claim_name c)
    /\ hs = ∅ /\ cs = [VerifyToken token].
Proof.
  intros H.
  destruct (me_200_inv tc cfg now cookie hs body cs H)
    as (cookies & token & c & Hp & Ht & Hv & Hb & Hh & Hc).
  destruct (verify_ok_signed tc cfg now token c Hv) as (h & p & Hs).
  destruct (verify_ok_inv tc cfg now token c Hv) as (Hd & He & Hi & Ha).
  exists cookies, token, c, h, p. repeat split; done.
Qed.

(** X9: a cookie header in which any named pair has an undecodable value
    makes the identify handler throw URIError before any verification,
    whatever the session cookie holds. *)
Theorem identify_faults_on_undecodable_cookie (tc : TokenCodec) (cfg : Config)
    (now : Z) (h : jsstring) :
  forallb part_decodable (String_split 59 h) = false ->
  serve (me tc cfg now (Some h)) = (Fault URIError, []).
Proof.
  intros Hbad. apply me_fault. rewrite parseCookies_unfold.
  destruct (parseCookies_loop ∅ (String_split 59 h)) as [m|e] eqn:Hl.
  - assert (forallb part_decodable (String_split 59 h) = true)
      by (apply (loop_ok ∅); eauto). congruence.
  - by apply loop_throws in Hl as ->.
Qed.

(** X10: a 200 from login means both fields were present, the store
    returned a row for that username, and the verifier accepted the password
    against that row's hash; the body shows the row's id, username and name
    only, the cookie is the one built from the signed token, and the calls
    are the lookup, the verification and the signing, in that order. *)
Theorem login_ok_is_verified (tc : TokenCodec) (ph : PasswordHasher)
    (cfg : Config) (db : Store) (now : Z) (body : option LoginBody)
    (hs : gmap string jsstring) (b : Json) (cs : list Call) :
  serve (login tc ph cfg db now body) = (Reply 200 hs b, cs) ->
  exists u p row header,
    body = request u p
    /\ falsy (Some u) = false /\ falsy (Some p) = false
    /\ pool_query db u = Ok [row] /\ row_username row = u
    /\ argon2_verify ph (row_password_hash row) p = Ok true
    /\ buildCookie AUTH_COOKIE (signToken tc cfg now (payload_of row))
         (cookieOptions cfg) = Ok header
    /\ hs = {[ "Set-Cookie" := header ]}
    /\ b = user_body (row_id row) (row_username row) (row_name row)
    /\ cs = [QueryUser u; VerifyPassword (row_password_hash row) p;
             SignToken (payload_of row)].
Proof.
  intros H.
  destruct (login_200_inv tc ph cfg db now body hs b cs H)
    as (u & p & row & header & Hu & Hp & Hune & Hpne & Hq & Hv & Hb & Hh
        & Hbody & Hcs).
  exists u, p, row, header.
  split.
  { destruct body as [[bu bp]|]; [|done]. cbn in Hu, Hp. by subst. }
  split; [by destruct u|]. split; [by destruct p|].
  split; [done|]. split.
  { apply (pool_query_match db u [row]); [done|apply list_elem_of_here]. }
  repeat split; done.
Qed.

(** X11: a login reply has status 200, 400 or 401; it sets a cookie exactly
    when the status is 200, and otherwise sets no header and returns an error
    body. *)
Theorem login_cookie_iff_success (tc : TokenCodec) (ph : PasswordHasher)
    (cfg : Config) (db : Store) (now : Z) (body : option LoginBody) (st : Z)
    (hs : gmap string jsstring) (b : Json) (cs : list Call) :
  serve (login tc ph cfg db now body) = (Reply st hs b, cs) ->
  (st = 200 \/ st = 400 \/ st = 401)%Z
  /\ (is_Some (hs !! "Set-Cookie") <-> st = 200%Z)
  /\ (st <> 200%Z -> hs = ∅ /\ exists msg, b = error_body msg).
Proof.
  intros H.
  destruct (login_reply_inv tc ph cfg db now body st hs b cs H)
    as [[-> Hc]|[Hst [-> Hb]]].
  - split; [by left|]. split; [done|]. done.
  - split; [by right|]. split; [|done].
    rewrite lookup_empty. split; [by intros [? ?]|].
    intros ->. by destruct Hst.
Qed.

(** X12: an error thrown by the store lookup or by the verifier is not
    caught by the login handler: it propagates unchanged, after the calls
    made so far, and no reply or cookie is produced. *)
Theorem login_propagates_faults (tc : TokenCodec) (ph : PasswordHasher)
    (cfg : Config) (db : Store) (now : Z) (u p : jsstring) (e : JsError) :
  falsy (Some u) = false -> falsy (Some p) = false ->
  (pool_query db u = Throw e ->
   serve (login tc ph cfg db now (request u p)) = (Fault e, [QueryUser u]))
  /\ (forall row,
        pool_query db u = Ok [row] ->
        argon2_verify ph (row_password_hash row) p = Throw e ->
        serve (login tc ph cfg db now (request u p))
        = (Fault e, [QueryUser u; VerifyPassword (row_password_hash row) p])).
Proof.
  intros Hu%falsy_some Hp%falsy_some. split.
  - by apply login_store_fault.
  - intros row. by apply login_verifier_fault.
Qed.

Lemma identity_only_for_verified_token_witness :
  let issued := signToken Reference.codec Reference.development 1000
                  (payload_of Reference.alice) in
  exists cookies token c h p,
    parseCookies (Some (js "auth_token=" ++ issued)) = Ok cookies
    /\ cookies !! AUTH_COOKIE = Some token
    /\ String_split 46 token
       = [h; p; mac Reference.codec (JWT_SECRET Reference.development)
                  (h ++ js "." ++ p)]
    /\ jwt_decode Reference.codec token = Some c
    /\ (1001 < claim_exp c)%Z
    /\ claim_iss c = js "web_test" /\ claim_aud c = js "web_test_frontend"
    /\ user_body (JStr (js "1")) (js "alice") None
       = user_body (JStr (claim_sub c)) (claim_username c) (claim_name c)
    /\ (∅ : gmap string jsstring) = ∅
    /\ [VerifyToken issued] = [VerifyToken token].
Proof.
  intros issued.
  apply (identity_only_for_verified_token Reference.codec
           Reference.development 1001 (Some (js "auth_token=" ++ issued))
           ∅ (user_body (JStr (js "1")) (js "alice") None)
           [VerifyToken issued]).
  vm_compute. reflexivity.
Defined.

Lemma identify_faults_on_undecodable_cookie_witness :
  serve (me Reference.codec Reference.development 1001
           (Some (js "auth_token="
                  ++ signToken Reference.codec Reference.development 1000
                       (payload_of Reference.alice)
                  ++ js "; pref=%ZZ")))
  = (Fault URIError, []).
Proof.
  apply identify_faults_on_undecodable_cookie. vm_compute. reflexivity.
Defined.

Lemma login_ok_is_verified_witness :
  exists u p row header,
    Reference.credentials "alice" "correct-pw" = request u p
    /\ pool_query Reference.db u = Ok [row]
    /\ argon2_verify Reference.hasher (row_password_hash row) p = Ok true
    /\ buildCookie AUTH_COOKIE
         (signToken Reference.codec Reference.development 1000
            (payload_of row))
         (cookieOptions Reference.development) = Ok header.
Proof.
  destruct (login_ok_is_verified Reference.codec Reference.hasher
              Reference.development Reference.db 1000
              (Reference.credentials "alice" "correct-pw")
              (headers (fst (login Reference.codec Reference.hasher
                               Reference.development Reference.db 1000
                               (Reference.credentials "alice" "correct-pw")
                               initial)))
              (user_body (JNum 1) (js "alice") None)
              [QueryUser (js "alice");
               VerifyPassword (row_password_hash Reference.alice)
                 (js "correct-pw");
               SignToken (payload_of Reference.alice)])
    as (u & p & row & header & H1 & _ & _ & H2 & _ & H3 & H4 & _).
  { vm_compute. reflexivity. }
  exists u, p, row, header. repeat split; assumption.
Defined.

Lemma login_cookie_iff_success_witness :
  (401 = 200 \/ 401 = 400 \/ 401 = 401)%Z
  /\ (is_Some ((∅ : gmap string jsstring) !! "Set-Cookie") <-> 401%Z = 200%Z)
  /\ (401%Z <> 200%Z ->
      (∅ : gmap string jsstring) = ∅
      /\ exists msg, error_body "Invalid username or password" = error_body msg).
Proof.
  apply (login_cookie_iff_success Reference.codec Reference.hasher
           Reference.development Reference.db 1000
           (Reference.credentials "alice" "wrong") 401 ∅
           (error_body "Invalid username or password")
           [QueryUser (js "alice");
            VerifyPassword (row_password_hash Reference.alice) (js "wrong")]).
  vm_compute. reflexivity.
Defined.

Lemma login_propagates_faults_witness :
  serve (login Reference.codec Reference.hasher Reference.development
           {| rows := [Reference.alice]; reachable := false |} 1000
           (request (js "alice") (js "correct-pw")))
  = (Fault (SystemError "store unreachable"), [QueryUser (js "alice")]).
Proof.
  apply (login_propagates_faults Reference.codec Reference.hasher
           Reference.development
           {| rows := [Reference.alice]; reachable := false |} 1000
           (js "alice") (js "correct-pw") (SystemError "store unreachable"));
    reflexivity.
Defined.

(** ** Issued tokens *)

Section Lifetime.
Context (tc : TokenCodec) (cfg : Config).

Lemma verify_sign_expired (L : CodecLaws tc) now now' payload :
  (now + JWT_EXPIRES_IN <= now')%Z ->
  verifyToken tc cfg now' (signToken tc cfg now payload)
  = Throw TokenExpiredError.
Proof.
  intros Hnow. unfold verifyToken, jwt_verify.
  destruct (signToken_split tc cfg L now payload) as [_ ->].
  rewrite (header_accepted tc L), (claims_roundtrip tc L). cbn [negb].
  destruct (decide _) as [Hs|_]; [by apply (mac_nonempty tc L) in Hs|].
  change (jose_header tc ++ js "." ++ ?p) with (jose_header tc ++ 46%N :: p).
  rewrite !bool_decide_eq_true_2 by done. cbn [negb claim_exp issued_claims].
  by rewrite (proj2 (Z.leb_le _ _)) by lia.
Qed.

Lemma verify_other_secret (L : CodecLaws tc) (cfg' : Config) now now' payload :
  let input := jose_header tc ++ js "."
               ++ encode_claims tc (issued_claims now payload) in
  mac tc (JWT_SECRET cfg) input <> mac tc (JWT_SECRET cfg') input ->
  verifyToken tc cfg' now' (signToken tc cfg now payload)
  = Throw (JsonWebTokenError "invalid signature").
Proof.
  intros input Hmac. unfold verifyToken, jwt_verify.
  destruct (signToken_split tc cfg L now payload) as [_ ->].
  rewrite (header_accepted tc L), (claims_roundtrip tc L). cbn [negb].
  destruct (decide _) as [Hs|_]; [by apply (mac_nonempty tc L) in Hs|].
  by rewrite bool_decide_eq_false_2.
Qed.

Lemma issued_cookie_parses (L : CodecLaws tc) now payload :
  parseCookies
    (Some (AUTH_COOKIE ++ js "=" ++ signToken tc cfg now payload))
  = Ok {[ AUTH_COOKIE := signToken tc cfg now payload ]}.
Proof.
  destruct (signToken_units tc cfg L now payload) as [Hunits Hne].
  set (token := signToken tc cfg now payload) in *.
  assert (Forall uri_unit token) as Huri.
  { eapply Forall_impl; [exact Hunits|]. intros c Hc. by left. }
  destruct (uri_units_plain token Huri) as (H59 & H61 & Hws).
  destruct (pair_key_value AUTH_COOKIE token eq_refl Huri) as [Hk Hv].
  rewrite parseCookies_unfold.
  change (AUTH_COOKIE ++ js "=" ++ token) with (AUTH_COOKIE ++ 61%N :: token)
    in *.
  rewrite String_split_none.
  2:{ rewrite elem_of_app, elem_of_cons. intros [H|[H|H]]; [|done|done].
      apply list_elem_of_In in H. vm_compute in H. intuition discriminate. }
  cbn [parseCookies_loop]. rewrite step_bind by by rewrite Hk.
  rewrite Hk, Hv.
  assert (decodeURIComponent token = Ok token) as ->.
  { apply decode_encode; [|by apply encode_unescaped].
    eapply Forall_impl; [exact Hunits|]. apply unescaped_code_unit. }
  reflexivity.
Qed.
End Lifetime.

Section LeadingSpace.
Lemma parseCookies_leading_space h :
  parseCookies (Some (32%N :: h)) = parseCookies (Some h).
Proof.
  rewrite !parseCookies_unfold.
  destruct (String_split_cons 59 32 h) as (p & ps & -> & ->); [done|].
  reflexivity.
Qed.
End LeadingSpace.

(** X13: a token signed by [signToken] at [t0] is accepted by
    [verifyToken] at every time before [t0 + 86400] and yields the signed
    claims; from [t0 + 86400] on it is rejected as expired. *)
Theorem issued_token_lifetime (tc : TokenCodec) (cfg : Config) (t0 t1 : Z)
    (payload : JwtPayload) :
  CodecLaws tc ->
  ((t1 < t0 + 86400)%Z ->
   verifyToken tc cfg t1 (signToken tc cfg t0 payload)
   = Ok (issued_claims t0 payload))
  /\ ((t0 + 86400 <= t1)%Z ->
      verifyToken tc cfg t1 (signToken tc cfg t0 payload)
      = Throw TokenExpiredError).
Proof.
  intros L. split; intros H.
  - by apply verify_sign.
  - by apply verify_sign_expired.
Qed.

Lemma issued_token_lifetime_witness :
  verifyToken Reference.codec Reference.development 87399
    (signToken Reference.codec Reference.development 1000
       (payload_of Reference.alice))
  = Ok (issued_claims 1000 (payload_of Reference.alice))
  /\ verifyToken Reference.codec Reference.development 87400
       (signToken Reference.codec Reference.development 1000
          (payload_of Reference.alice))
     = Throw TokenExpiredError.
Proof.
  destruct (issued_token_lifetime Reference.codec Reference.development 1000
              87399 (payload_of Reference.alice) ReferenceFacts.codec_laws)
    as [H1 _].
  destruct (issued_token_lifetime Reference.codec Reference.development 1000
              87400 (payload_of Reference.alice) ReferenceFacts.codec_laws)
    as [_ H2].
  split; [apply H1; lia|apply H2; lia].
Defined.

(** X14: a token signed under another secret, whose signature differs
    from the one the verifying secret gives, is rejected as an invalid
    signature, and the identify handler answers 401. *)
Theorem other_secret_rejected (tc : TokenCodec) (cfg cfg' : Config)
    (t0 t1 : Z) (payload : JwtPayload) :
  CodecLaws tc ->
  mac tc (JWT_SECRET cfg)
    (jose_header tc ++ js "." ++ encode_claims tc (issued_claims t0 payload))
  <> mac tc (JWT_SECRET cfg')
       (jose_header tc ++ js "." ++ encode_claims tc (issued_claims t0 payload)) ->
  verifyToken tc cfg' t1 (signToken tc cfg t0 payload)
  = Throw (JsonWebTokenError "invalid signature")
  /\ serve (me tc cfg' t1
              (Some (AUTH_COOKIE ++ js "=" ++ signToken tc cfg t0 payload)))
     = (Reply 401 ∅ (error_body "Invalid or expired session"),
        [VerifyToken (signToken tc cfg t0 payload)]).
Proof.
  intros L Hmac.
  pose proof (verify_other_secret tc cfg L cfg' t0 t1 payload Hmac) as Hv.
  split; [done|].
  destruct (signToken_units tc cfg L t0 payload) as [_ Hne].
  apply (me_rejected tc cfg' t1 _ {[ AUTH_COOKIE := signToken tc cfg t0 payload ]}
           (signToken tc cfg t0 payload)).
  - by apply issued_cookie_parses.
  - apply lookup_singleton_eq.
  - done.
  - by rewrite Hv.
Qed.

Lemma other_secret_rejected_witness :
  verifyToken Reference.codec Reference.development 1001
    (signToken Reference.codec
       {| DATABASE_URL := []; JWT_SECRET := js "old-secret";
          NODE_ENV := js "development"; FRONTEND_ORIGIN := [] |}
       1000 (payload_of Reference.alice))
  = Throw (JsonWebTokenError "invalid signature").
Proof.
  apply (other_secret_rejected Reference.codec
           {| DATABASE_URL := []; JWT_SECRET := js "old-secret";
              NODE_ENV := js "development"; FRONTEND_ORIGIN := [] |}
           Reference.development 1000 1001 (payload_of Reference.alice)
           ReferenceFacts.codec_laws).
  intros H. apply (f_equal (take 4)) in H. vm_compute in H. discriminate.
Defined.

(** X15: other cookies sent along with the session cookie, before or after
    it, do not change the identify reply, as long as they decode and none of
    them is named [auth_token]. *)
Theorem identify_ignores_other_cookies (tc : TokenCodec) (cfg : Config)
    (t0 t1 : Z) (payload : JwtPayload) (other : jsstring)
    (others : gmap jsstring jsstring) :
  CodecLaws tc ->
  (t1 < t0 + 86400)%Z ->
  parseCookies (Some other) = Ok others ->
  others !! AUTH_COOKIE = None ->
  let pair := AUTH_COOKIE ++ js "=" ++ signToken tc cfg t0 payload in
  let reply :=
    (Reply 200 ∅
       (user_body (JStr (payload_sub payload)) (payload_username payload)
          (payload_name payload)),
     [VerifyToken (signToken tc cfg t0 payload)]) in
  serve (me tc cfg t1 (Some (other ++ js "; " ++ pair))) = reply
  /\ serve (me tc cfg t1 (Some (pair ++ js "; " ++ other))) = reply.
Proof.
  intros L Ht Ho Hnone pair reply.
  pose proof (issued_cookie_parses tc cfg L t0 payload) as Hpair.
  fold pair in Hpair.
  destruct (signToken_units tc cfg L t0 payload) as [_ Hne].
  pose proof (verify_sign tc cfg L t0 t1 payload Ht) as Hv.
  assert (parseCookies (Some (other ++ js "; " ++ pair))
          = Ok ({[ AUTH_COOKIE := signToken tc cfg t0 payload ]} ∪ others))
    as H1.
  { change (other ++ js "; " ++ pair) with (other ++ 59%N :: (32%N :: pair)).
    rewrite parseCookies_unfold, String_split_app, loop_app.
    rewrite parseCookies_unfold in Ho. rewrite Ho. cbn [bind].
    apply loop_from. rewrite <- parseCookies_unfold.
    by rewrite parseCookies_leading_space. }
  assert (parseCookies (Some (pair ++ js "; " ++ other))
          = Ok (others ∪ {[ AUTH_COOKIE := signToken tc cfg t0 payload ]}))
    as H2.
  { change (pair ++ js "; " ++ other) with (pair ++ 59%N :: (32%N :: other)).
    rewrite parseCookies_unfold, String_split_app, loop_app.
    rewrite parseCookies_unfold in Hpair. rewrite Hpair. cbn [bind].
    apply loop_from. rewrite <- parseCookies_unfold.
    by rewrite parseCookies_leading_space. }
  split.
  - apply (me_accepted tc cfg t1 _ _ (signToken tc cfg t0 payload)
             (issued_claims t0 payload) H1); [|done|done].
    apply lookup_union_Some_l, lookup_singleton_eq.
  - apply (me_accepted tc cfg t1 _ _ (signToken tc cfg t0 payload)
             (issued_claims t0 payload) H2); [|done|done].
    rewrite lookup_union_r by done. apply lookup_singleton_eq.
Qed.

Lemma identify_ignores_other_cookies_witness :
  serve (me Reference.codec Reference.development 1001
           (Some (js "theme=dark; lang=th" ++ js "; "
                  ++ (AUTH_COOKIE ++ js "="
                      ++ signToken Reference.codec Reference.development 1000
                           (payload_of Reference.alice)))))
  = (Reply 200 ∅ (user_body (JStr (js "1")) (js "alice") None),
     [VerifyToken (signToken Reference.codec Reference.development 1000
                     (payload_of Reference.alice))]).
Proof.
  apply (identify_ignores_other_cookies Reference.codec Reference.development
           1000 1001 (payload_of Reference.alice) (js "theme=dark; lang=th")
           (<[js "lang" := js "th"]> {[ js "theme" := js "dark" ]})
           ReferenceFacts.codec_laws);
    [lia | vm_compute; reflexivity | reflexivity].
Defined.

(** X16: on a successful login the [Set-Cookie] header is the text
    [auth_token=<token>; HttpOnly; Path=/; SameSite=Lax; Max-Age=86400],
    followed by [; Secure] in production; the token is written unescaped. *)
Theorem login_set_cookie_wire (tc : TokenCodec) (ph : PasswordHasher)
    (cfg : Config) (db : Store) (now : Z) (u p : jsstring) (row : UserRow) :
  CodecLaws tc ->
  falsy (Some u) = false -> falsy (Some p) = false ->
  pool_query db u = Ok [row] ->
  argon2_verify ph (row_password_hash row) p = Ok true ->
  set_cookie (fst (serve (login tc ph cfg db now (request u p))))
  = Some (js "auth_token=" ++ signToken tc cfg now (payload_of row)
          ++ js "; HttpOnly; Path=/; SameSite=Lax; Max-Age=86400"
          ++ (if decide (NODE_ENV cfg = js "production") then js "; Secure"
              else [])).
Proof.
  intros L Hu Hp Hq Hv.
  destruct (signToken_units tc cfg L now (payload_of row)) as [Hunits _].
  pose proof (encode_unescaped _ Hunits) as Henc.
  set (token := signToken tc cfg now (payload_of row)) in *.
  assert (buildCookie AUTH_COOKIE token (cookieOptions cfg)
          = Ok (js "auth_token=" ++ token
                ++ js "; HttpOnly; Path=/; SameSite=Lax; Max-Age=86400"
                ++ (if decide (NODE_ENV cfg = js "production")
                    then js "; Secure" else []))) as Hb.
  { unfold buildCookie. rewrite Henc. cbn [bind]. rewrite Array_join_cons.
    unfold cookieOptions.
    destruct (decide (NODE_ENV cfg = js "production"));
      cbn [flat_map app]; rewrite <- !app_assoc; reflexivity. }
  rewrite (login_success tc ph cfg db now u p row [] _
             (falsy_some _ Hu) (falsy_some _ Hp) Hq Hv Hb).
  cbn [fst set_cookie]. apply lookup_singleton_eq.
Qed.

Lemma login_set_cookie_wire_witness :
  set_cookie (fst (serve (login Reference.codec Reference.hasher
                            Reference.production Reference.db 1000
                            (request (js "alice") (js "correct-pw")))))
  = Some (js "auth_token="
          ++ signToken Reference.codec Reference.production 1000
               (payload_of Reference.alice)
          ++ js "; HttpOnly; Path=/; SameSite=Lax; Max-Age=86400"
          ++ js "; Secure").
Proof.
  apply (login_set_cookie_wire Reference.codec Reference.hasher
           Reference.production Reference.db 1000 (js "alice")
           (js "correct-pw") Reference.alice ReferenceFacts.codec_laws);
    [reflexivity | reflexivity | reflexivity | vm_compute; reflexivity].
Defined.

(** X17: a process started with [NODE_ENV] unset, or set to anything but
    exactly "production", never writes [Secure] in a cookie, on login or on
    logout. *)
Theorem secure_needs_production_environment (tc : TokenCodec)
    (ph : PasswordHasher) (e : ProcessEnv) (cfg : Config) :
  startup e = Ok cfg ->
  env_NODE_ENV e <> Some (js "production") ->
  (forall db now body header,
     set_cookie (fst (serve (login tc ph cfg db now body))) = Some header ->
     js "Secure" ∉ cookie_attributes header)
  /\ (forall header,
        set_cookie (fst (serve (logout cfg))) = Some header ->
        js "Secure" ∉ cookie_attributes header).
Proof.
  intros Hs Hne.
  assert (NODE_ENV cfg <> js "production") as Hdev.
  { unfold startup in Hs.
    destruct (falsy (env_DATABASE_URL e)); [done|].
    destruct (falsy (env_JWT_SECRET e)); [done|].
    injection Hs as <-. cbn [NODE_ENV].
    destruct (env_NODE_ENV e) as [v|]; cbn [default from_option id].
    - intros ->. done.
    - discriminate. }
  split.
  - intros db now body header Hc.
    destruct (login_set_cookie tc ph cfg db now body header Hc) as [token Hb].
    destruct (active_attributes cfg token header Hb) as (_ & Hiff & _).
    intros Hin. by apply Hiff in Hin.
  - intros header Hc.
    destruct (logout_reply cfg) as (header' & Hb & Hr).
    rewrite Hr in Hc. cbn [fst set_cookie] in Hc.
    rewrite lookup_singleton_eq in Hc. injection Hc as <-.
    destruct (cleared_attributes cfg [] header' Hb) as (_ & Hiff & _).
    intros Hin. by apply Hiff in Hin.
Qed.

Lemma secure_needs_production_environment_witness :
  let cfg := {| DATABASE_URL := js "postgres://db";
                JWT_SECRET := js "s3cret";
                NODE_ENV := js "Production";
                FRONTEND_ORIGIN := js "http://localhost:5173" |} in
  let header := js "auth_token=; HttpOnly; Path=/; SameSite=Lax; Max-Age=0" in
  set_cookie (fst (serve (logout cfg))) = Some header
  /\ js "Secure" ∉ cookie_attributes header.
Proof.
  intros cfg header. split; [reflexivity|].
  apply (proj2 (secure_needs_production_environment Reference.codec
                  Reference.hasher
                  {| env_DATABASE_URL := Some (js "postgres://db");
                     env_JWT_SECRET := Some (js "s3cret");
                     env_NODE_ENV := Some (js "Production");
                     env_FRONTEND_ORIGIN := None |}
                  cfg eq_refl ltac:(discriminate))).
  reflexivity.
Defined.

(** ** The page script *)

Section PageFacts.
Import Page.
Implicit Types (net : Network) (s : State).

Lemma login_request_begin s : login_request (begin s) = login_request s.
Proof. reflexivity. Qed.

Lemma status_401_not_ok res : res_status res = 401%Z -> ok res = false.
Proof. unfold ok. intros ->. reflexivity. Qed.

Lemma fetchMe_ok net silent s res data :
  net me_request = Resolves res -> ok res = true ->
  res_json res = Parses data ->
  fst (fetchMe net silent s)
  = {| username := username s; password := password s; loading := false;
       checkingSession := checkingSession s; isAuthenticated := true;
       me := nullish (member "user" data) data;
       statusCode := Some (res_status res); error := [];
       success := js "Logged in successfully" |}.
Proof.
  intros Hnet Hok Hjson. unfold fetchMe, fetchMe_try.
  cbn [begin]. by rewrite Hnet, Hok, Hjson.
Qed.

Lemma login_after_ok net s res :
  net (login_request s) = Resolves res -> ok res = true ->
  fst (login net s) = fst (fetchMe net false (set_password [] s))
  /\ snd (login net s) = [login_request s; me_request].
Proof.
  intros Hnet Hok. unfold login, login_try.
  rewrite login_request_begin, Hnet, Hok. cbn [negb fst snd].
  split; [|reflexivity].
  unfold fetchMe, fetchMe_try, finish. cbn [fst snd begin].
  destruct (net me_request) as [err|r2]; [reflexivity|].
  destruct (ok r2); cbn [negb].
  - by destruct (res_json r2).
  - by destruct (res_status r2 =? 401)%Z.
Qed.

Lemma fetchMe_keeps_fields net silent s :
  username (fst (fetchMe net silent s)) = username s
  /\ password (fst (fetchMe net silent s)) = password s
  /\ checkingSession (fst (fetchMe net silent s)) = checkingSession s.
Proof.
  unfold fetchMe, fetchMe_try. cbn [begin fst].
  destruct (net me_request) as [err|res]; [done|].
  destruct (ok res); cbn [negb].
  - by destruct (res_json res).
  - destruct (res_status res =? 401)%Z; [by destruct silent|done].
Qed.
End PageFacts.

(** X18: on a 401 from /api/me, [fetchMe] drops the session (not
    authenticated, no user), records the status, clears [loading], and shows
    "Session expired. Please login again." unless it was called silently;
    nothing else changes and one request is made. *)
Theorem fetchMe_unauthorized (net : Page.Network) (silent : bool)
    (s : Page.State) (res : Page.FetchResponse) :
  net Page.me_request = Page.Resolves res ->
  Page.res_status res = 401%Z ->
  Page.fetchMe net silent s
  = ({| Page.username := Page.username s;
        Page.password := Page.password s;
        Page.loading := false;
        Page.checkingSession := Page.checkingSession s;
        Page.isAuthenticated := false;
        Page.me := JNull;
        Page.statusCode := Some 401%Z;
        Page.error := if silent then []
                      else js "Session expired. Please login again.";
        Page.success := [] |},
     [Page.me_request]).
Proof.
  intros Hnet Hst. unfold Page.fetchMe, Page.fetchMe_try.
  cbn [Page.begin]. rewrite Hnet, (status_401_not_ok res Hst), Hst.
  cbn [negb Z.eqb Pos.eqb]. by destruct silent.
Qed.

Lemma fetchMe_unauthorized_witness :
  Page.error
    (fst (Page.fetchMe
            (fun _ => Page.Resolves
                        {| Page.res_status := 401;
                           Page.res_json :=
                             Page.Parses (error_body "Missing session cookie") |})
            true Page.initial)) = [].
Proof.
  rewrite (fetchMe_unauthorized _ true Page.initial
             {| Page.res_status := 401;
                Page.res_json :=
                  Page.Parses (error_body "Missing session cookie") |}
             eq_refl eq_refl).
  reflexivity.
Defined.

(** X19: on a successful reply with a JSON body, [fetchMe] marks the page
    authenticated with the success message and no error, and stores the
    body's [user] member when it is present and not null, the whole body
    otherwise. *)
Theorem fetchMe_success (net : Page.Network) (silent : bool) (s : Page.State)
    (res : Page.FetchResponse) (data : Json) :
  net Page.me_request = Page.Resolves res ->
  Page.ok res = true ->
  Page.res_json res = Page.Parses data ->
  let s' := fst (Page.fetchMe net silent s) in
  Page.isAuthenticated s' = true
  /\ Page.success s' = js "Logged in successfully"
  /\ Page.error s' = []
  /\ Page.loading s' = false
  /\ Page.statusCode s' = Some (Page.res_status res)
  /\ (forall u, Page.member "user" data = Some u -> u <> JNull ->
                Page.me s' = u)
  /\ (Page.member "user" data = None \/ Page.member "user" data = Some JNull ->
      Page.me s' = data)
  /\ (forall id uname name, data = user_body id uname name ->
        Page.me s' = JObj [("id", id); ("username", JStr uname);
                           ("name", nullable name)]).
Proof.
  intros Hnet Hok Hjson.
  rewrite (fetchMe_ok net silent s res data Hnet Hok Hjson). cbn.
  repeat split.
  - intros u -> Hu. by destruct u.
  - by intros [->| ->].
  - by intros id uname name ->.
Qed.

Lemma fetchMe_success_witness :
  Page.me
    (fst (Page.fetchMe
            (fun _ => Page.Resolves
                        {| Page.res_status := 200;
                           Page.res_json :=
                             Page.Parses
                               (user_body (JStr (js "1")) (js "alice") None) |})
            false Page.initial))
  = JObj [("id", JStr (js "1")); ("username", JStr (js "alice"));
          ("name", JNull)].
Proof.
  destruct (fetchMe_success
              (fun _ => Page.Resolves
                          {| Page.res_status := 200;
                             Page.res_json :=
                               Page.Parses
                                 (user_body (JStr (js "1")) (js "alice") None) |})
              false Page.initial _ _ eq_refl eq_refl eq_refl)
    as (_ & _ & _ & _ & _ & _ & _ & H).
  apply (H (JStr (js "1")) (js "alice") None). reflexivity.
Defined.

(** X20: when /api/me cannot be reached, answers a failure other than 401,
    or answers success with a body that is not JSON, [fetchMe] shows the
    error and leaves the authenticated flag and the stored user as they
    were. *)
Theorem fetchMe_failure_keeps_session (net : Page.Network) (silent : bool)
    (s : Page.State) (msg : jsstring) :
  (exists err, net Page.me_request = Page.Rejects err
               /\ msg = Page.message_of err)
  \/ (exists res, net Page.me_request = Page.Resolves res
                  /\ Page.ok res = false /\ Page.res_status res <> 401%Z
                  /\ msg = js "Failed to fetch profile ("
                           ++ js (pretty (Page.res_status res)) ++ js ")")
  \/ (exists res, net Page.me_request = Page.Resolves res
                  /\ Page.ok res = true
                  /\ Page.res_json res = Page.SyntaxError msg) ->
  let s' := fst (Page.fetchMe net silent s) in
  Page.isAuthenticated s' = Page.isAuthenticated s
  /\ Page.me s' = Page.me s
  /\ Page.error s' = msg
  /\ Page.success s' = []
  /\ Page.loading s' = false.
Proof.
  intros H. unfold Page.fetchMe, Page.fetchMe_try. cbn [Page.begin].
  destruct H as [(err & -> & ->)|[(res & -> & Hok & Hst & ->)
                                 |(res & -> & Hok & Hjson)]].
  - done.
  - rewrite Hok. cbn [negb].
    destruct (Z.eqb_spec (Page.res_status res) 401); [done|]. done.
  - rewrite Hok, Hjson. done.
Qed.

Lemma fetchMe_failure_keeps_session_witness :
  let s := Page.set_isAuthenticated true Page.initial in
  Page.isAuthenticated
    (fst (Page.fetchMe
            (fun _ => Page.Resolves
                        {| Page.res_status := 500;
                           Page.res_json := Page.SyntaxError (js "bad") |})
            true s)) = true.
Proof.
  intros s.
  destruct (fetchMe_failure_keeps_session
              (fun _ => Page.Resolves
                          {| Page.res_status := 500;
                             Page.res_json := Page.SyntaxError (js "bad") |})
              true s (js "Failed to fetch profile (500)")) as (H & _).
  { right. left. eexists. split; [reflexivity|].
    split; [reflexivity|]. split; [discriminate|reflexivity]. }
  exact H.
Defined.

(** X21: on a failed login reply the page makes no further request, keeps
    the password, the authenticated flag and the user, records the status and
    shows the reply's message: the text of an [{error}] body, or
    "Login failed (status)" when the body is not JSON. *)
Theorem page_login_failure (net : Page.Network) (s : Page.State)
    (res : Page.FetchResponse) :
  net (Page.login_request s) = Page.Resolves res ->
  Page.ok res = false ->
  let s' := fst (Page.login net s) in
  snd (Page.login net s) = [Page.login_request s]
  /\ Page.password s' = Page.password s
  /\ Page.isAuthenticated s' = Page.isAuthenticated s
  /\ Page.me s' = Page.me s
  /\ Page.statusCode s' = Some (Page.res_status res)
  /\ Page.success s' = [] /\ Page.loading s' = false
  /\ Page.error s' = Page.login_failure_message res
  /\ (forall msg, Page.res_json res = Page.Parses (error_body msg) ->
                  msg <> ""%string -> Page.error s' = js msg)
  /\ (forall m, Page.res_json res = Page.SyntaxError m ->
                Page.error s'
                = js "Login failed (" ++ js (pretty (Page.res_status res))
                  ++ js ")").
Proof.
  intros Hnet Hok. unfold Page.login, Page.login_try.
  rewrite login_request_begin, Hnet, Hok. cbn.
  repeat split.
  - intros msg Hj Hmsg. unfold Page.login_failure_message. rewrite Hj.
    destruct msg as [|a msg]; [done|]. reflexivity.
  - intros m Hj. unfold Page.login_failure_message. by rewrite Hj.
Qed.

Lemma page_login_failure_witness :
  Page.error
    (fst (Page.login
            (fun _ => Page.Resolves
                        {| Page.res_status := 401;
                           Page.res_json :=
                             Page.Parses
                               (error_body "Invalid username or password") |})
            (Page.set_password (js "wrong")
               (Page.set_username (js "alice") Page.initial))))
  = js "Invalid username or password".
Proof.
  destruct (page_login_failure
              (fun _ => Page.Resolves
                          {| Page.res_status := 401;
                             Page.res_json :=
                               Page.Parses
                                 (error_body "Invalid username or password") |})
              (Page.set_password (js "wrong")
                 (Page.set_username (js "alice") Page.initial))
              _ eq_refl eq_refl) as (_ & _ & _ & _ & _ & _ & _ & _ & H & _).
  apply (H "Invalid username or password"%string); [reflexivity|discriminate].
Defined.

(** X22: on a successful login reply the page clears the password and then
    is exactly as after a non-silent [fetchMe]; two requests are made, the
    login and then /api/me. *)
Theorem page_login_then_fetchMe (net : Page.Network) (s : Page.State)
    (res : Page.FetchResponse) :
  net (Page.login_request s) = Page.Resolves res ->
  Page.ok res = true ->
  fst (Page.login net s) = fst (Page.fetchMe net false (Page.set_password [] s))
  /\ snd (Page.login net s) = [Page.login_request s; Page.me_request]
  /\ Page.password (fst (Page.login net s)) = [].
Proof.
  intros Hnet Hok.
  destruct (login_after_ok net s res Hnet Hok) as [H1 H2].
  split; [done|]. split; [done|]. rewrite H1.
  by destruct (fetchMe_keeps_fields net false (Page.set_password [] s))
    as (_ & -> & _).
Qed.

Lemma page_login_then_fetchMe_witness :
  let net := fun r : Page.FetchRequest =>
    if bool_decide (Page.url r = Page.LOGIN_PATH) then
      Page.Resolves {| Page.res_status := 200;
                       Page.res_json :=
                         Page.Parses (user_body (JNum 1) (js "alice") None) |}
    else
      Page.Resolves {| Page.res_status := 401;
                       Page.res_json :=
                         Page.Parses (error_body "Missing session cookie") |} in
  let s := Page.set_password (js "correct-pw")
             (Page.set_username (js "alice") Page.initial) in
  Page.password (fst (Page.login net s)) = []
  /\ Page.error (fst (Page.login net s))
     = js "Session expired. Please login again.".
Proof.
  intros net s.
  destruct (page_login_then_fetchMe net s _ eq_refl eq_refl)
    as (H1 & _ & H3).
  split; [exact H3|]. rewrite H1. reflexivity.
Defined.

(** X23: [logout] always ends with [loading] cleared after one request;
    the session is dropped only on a successful reply; on a failed reply or
    an unreachable server the authenticated flag and the user stay and the
    error is shown. *)
Theorem logout_outcomes (net : Page.Network) (s : Page.State) :
  let s' := fst (Page.logout net s) in
  Page.loading s' = false
  /\ snd (Page.logout net s) = [Page.logout_request]
  /\ match net Page.logout_request with
     | Page.Resolves res =>
         Page.statusCode s' = Some (Page.res_status res)
         /\ if Page.ok res then
              Page.isAuthenticated s' = false /\ Page.me s' = JNull
              /\ Page.success s' = js "Logged out" /\ Page.error s' = []
            else
              Page.isAuthenticated s' = Page.isAuthenticated s
              /\ Page.me s' = Page.me s /\ Page.success s' = []
              /\ Page.error s'
                 = js "Logout failed (" ++ js (pretty (Page.res_status res))
                   ++ js ")"
     | Page.Rejects err =>
         Page.statusCode s' = None
         /\ Page.isAuthenticated s' = Page.isAuthenticated s
         /\ Page.me s' = Page.me s /\ Page.success s' = []
         /\ Page.error s' = Page.message_of err
     end.
Proof.
  unfold Page.logout, Page.logout_try. cbn [Page.begin fst snd].
  destruct (net Page.logout_request) as [err|res]; [done|].
  by destruct (Page.ok res).
Qed.

Section PageInvariant.
Import Page.
Implicit Types (net : Network) (s : State).

Lemma fetchMe_settled net silent s :
  (isAuthenticated s = false -> me s = JNull) ->
  settled (fst (fetchMe net silent s)).
Proof.
  intros Hme. unfold settled, fetchMe, fetchMe_try. cbn [begin fst].
  destruct (net me_request) as [err|res].
  { cbn. repeat split; try done; auto. }
  destruct (ok res); cbn [negb].
  - destruct (res_json res) as [data|m]; cbn;
      repeat split; try done; auto.
  - destruct (res_status res =? 401)%Z; [destruct silent|]; cbn;
      repeat split; try done; auto.
Qed.

Lemma login_settled net s :
  (isAuthenticated s = false -> me s = JNull) -> settled (fst (login net s)).
Proof.
  intros Hme. unfold login, login_try. rewrite login_request_begin.
  destruct (net (login_request s)) as [err|res].
  { unfold settled. cbn. repeat split; try done; auto. }
  destruct (ok res) eqn:Hok; cbn [negb].
  - cbn [fst snd].
    pose proof (fetchMe_settled net false
                  (set_password [] (set_statusCode (Some (res_status res))
                                      (begin s))) Hme) as Hs.
    unfold settled in *. unfold finish. cbn [snd fst].
    destruct Hs as (H1 & H2 & H3 & H4 & H5). repeat split; done.
  - unfold settled. cbn. repeat split; try done; auto.
Qed.

Lemma logout_settled net s :
  (isAuthenticated s = false -> me s = JNull) -> settled (fst (logout net s)).
Proof.
  intros Hme. unfold settled, logout, logout_try. cbn [begin fst].
  destruct (net logout_request) as [err|res].
  { cbn. repeat split; try done; auto. }
  destruct (ok res); cbn; repeat split; try done; auto.
Qed.
End PageInvariant.

(** X24: in every state the page can reach, [loading] is off, the error
    and the success message are never both set, a page that is not
    authenticated holds no user, and the two success messages agree with the
    authenticated flag. *)
Theorem reachable_states_are_settled (s : Page.State) :
  Page.reachable s ->
  Page.loading s = false
  /\ (Page.error s = [] \/ Page.success s = [])
  /\ (Page.isAuthenticated s = false -> Page.me s = JNull)
  /\ (Page.success s = js "Logged in successfully" ->
      Page.isAuthenticated s = true)
  /\ (Page.success s = js "Logged out" -> Page.isAuthenticated s = false).
Proof.
  induction 1 as [|net a s Hr IH].
  { repeat split; try done; auto. }
  destruct IH as (H1 & H2 & H3 & H4 & H5).
  destruct a; cbn [Page.act].
  - destruct (fetchMe_settled net true s H3) as (?&?&?&?&?).
    unfold Page.onMount. cbn [fst]. repeat split; done.
  - cbn. repeat split; done.
  - cbn. repeat split; done.
  - by apply login_settled.
  - by apply fetchMe_settled.
  - by apply logout_settled.
Qed.

Lemma reachable_states_are_settled_witness :
  let net := fun _ : Page.FetchRequest =>
    Page.Resolves {| Page.res_status := 200;
                     Page.res_json := Page.Parses JNull |} in
  let s := Page.act net Page.ClickLogout
             (Page.act net Page.Submit
                (Page.act net (Page.TypePassword (js "pw"))
                   (Page.act net Page.Mount Page.initial))) in
  Page.loading s = false
  /\ (Page.error s = [] \/ Page.success s = [])
  /\ (Page.isAuthenticated s = false -> Page.me s = JNull)
  /\ (Page.success s = js "Logged in successfully" ->
      Page.isAuthenticated s = true)
  /\ (Page.success s = js "Logged out" -> Page.isAuthenticated s = false).
Proof.
  intros net s. apply reachable_states_are_settled.
  repeat apply Page.reach_act. apply Page.reach_initial.
Defined.

Section EndToEnd.
Context (tc : TokenCodec) (ph : PasswordHasher) (cfg : Config).

Lemma login_then_me_replies (L : CodecLaws tc) db t0 t1 u p row :
  u <> [] -> p <> [] -> pool_query db u = Ok [row] ->
  argon2_verify ph (row_password_hash row) p = Ok true ->
  (t1 < t0 + 86400)%Z ->
  exists header,
    fst (serve (login tc ph cfg db t0 (request u p)))
    = Reply 200 {[ "Set-Cookie" := header ]}
        (user_body (row_id row) (row_username row) (row_name row))
    /\ fst (serve (me tc cfg t1 (Some (cookie_pair header))))
       = Reply 200 ∅
           (user_body (JStr (String_of (row_id row))) (row_username row)
              (row_name row)).
Proof.
  intros Hu Hp Hq Hv Ht.
  set (token := signToken tc cfg t0 (payload_of row)).
  destruct (signToken_units tc cfg L t0 (payload_of row)) as [Hunits Hne].
  fold token in Hunits, Hne.
  pose proof (encode_unescaped token Hunits) as Henc.
  assert (exists header,
            buildCookie AUTH_COOKIE token (cookieOptions cfg) = Ok header)
    as [header Hb].
  { unfold buildCookie. rewrite Henc. eauto. }
  exists header. split.
  - by rewrite (login_success tc ph cfg db t0 u p row [] header).
  - destruct (built_cookie _ _ _ Hb) as (e & He & -> & _).
    assert (e = token) as -> by congruence.
    pose proof (issued_cookie_parses tc cfg L t0 (payload_of row)) as Hparse.
    fold token in Hparse.
    change (AUTH_COOKIE ++ js "=" ++ token) with (AUTH_COOKIE ++ 61%N :: token)
      in Hparse.
    rewrite (me_accepted tc cfg t1 _ _ token
               (issued_claims t0 (payload_of row)) Hparse
               (lookup_singleton_eq _ _) Hne); [done|].
    apply verify_sign; [done|]. unfold JWT_EXPIRES_IN. lia.
Qed.
End EndToEnd.

(** X25: the page's login against this backend, with credentials that
    match a stored record and the issued cookie returned on the next request,
    ends authenticated, with the password cleared, status 200, no error, and
    the user's id in string form, username and name. *)
Theorem page_login_against_backend (tc : TokenCodec) (ph : PasswordHasher)
    (cfg : Config) (db : Store) (t0 t1 : Z) (net : Page.Network)
    (s : Page.State) (row : UserRow) :
  CodecLaws tc ->
  falsy (Some (Page.username s)) = false ->
  falsy (Some (Page.password s)) = false ->
  pool_query db (Page.username s) = Ok [row] ->
  argon2_verify ph (row_password_hash row) (Page.password s) = Ok true ->
  (t1 < t0 + 86400)%Z ->
  (forall st hs b,
     fst (serve (login tc ph cfg db t0
                   (request (Page.username s) (Page.password s))))
     = Reply st hs b ->
     net (Page.login_request s)
     = Page.Resolves {| Page.res_status := st; Page.res_json := Page.Parses b |}) ->
  (forall header st hs b,
     set_cookie (fst (serve (login tc ph cfg db t0
                               (request (Page.username s) (Page.password s)))))
     = Some header ->
     fst (serve (me tc cfg t1 (Some (cookie_pair header)))) = Reply st hs b ->
     net Page.me_request
     = Page.Resolves {| Page.res_status := st; Page.res_json := Page.Parses b |}) ->
  let s' := fst (Page.login net s) in
  Page.isAuthenticated s' = true
  /\ Page.me s' = JObj [("id", JStr (String_of (row_id row)));
                        ("username", JStr (Page.username s));
                        ("name", nullable (row_name row))]
  /\ Page.password s' = []
  /\ Page.statusCode s' = Some 200%Z
  /\ Page.error s' = []
  /\ Page.success s' = js "Logged in successfully".
Proof.
  intros L Hu Hp Hq Hv Ht Hlogin Hme.
  destruct (login_then_me_replies tc ph cfg L db t0 t1 _ _ row
              (falsy_some _ Hu) (falsy_some _ Hp) Hq Hv Ht)
    as (header & H1 & H2).
  pose proof (Hlogin _ _ _ H1) as Hn1.
  assert (set_cookie (fst (serve (login tc ph cfg db t0
                                    (request (Page.username s) (Page.password s)))))
          = Some header) as Hc.
  { rewrite H1. cbn [set_cookie]. apply lookup_singleton_eq. }
  pose proof (Hme _ _ _ _ Hc H2) as Hn2.
  assert (row_username row = Page.username s) as Hrow.
  { apply (pool_query_match db _ [row]); [done|apply list_elem_of_here]. }
  destruct (login_after_ok net s _ Hn1 eq_refl) as [Heq _].
  cbv zeta. rewrite Heq.
  rewrite (fetchMe_ok net false (Page.set_password [] s) _ _ Hn2
             eq_refl eq_refl).
  cbn. by rewrite Hrow.
Qed.

Lemma page_login_against_backend_witness :
  let s := Page.set_password (js "correct-pw")
             (Page.set_username (js "alice") Page.initial) in
  let r1 := fst (serve (login Reference.codec Reference.hasher
                          Reference.development Reference.db 1000
                          (request (js "alice") (js "correct-pw")))) in
  let r2 := fun c => fst (serve (me Reference.codec Reference.development
                                   1001 c)) in
  let deliver := fun r =>
    match r with
    | Reply st _ b =>
        Page.Resolves {| Page.res_status := st; Page.res_json := Page.Parses b |}
    | Fault _ => Page.Rejects Page.OtherValue
    end in
  let net := fun req : Page.FetchRequest =>
    if bool_decide (Page.url req = Page.LOGIN_PATH) then deliver r1
    else deliver (r2 (cookie_pair <$> set_cookie r1)) in
  Page.isAuthenticated (fst (Page.login net s)) = true
  /\ Page.me (fst (Page.login net s))
     = JObj [("id", JStr (js "1")); ("username", JStr (js "alice"));
             ("name", JNull)].
Proof.
  intros s r1 r2 deliver net.
  destruct (page_login_against_backend Reference.codec Reference.hasher
              Reference.development Reference.db 1000 1001 net s
              Reference.alice ReferenceFacts.codec_laws)
    as (H1 & H2 & _);
    [reflexivity | reflexivity | reflexivity | vm_compute; reflexivity | lia
    | | | ].
  - intros st hs b H. change (net (Page.login_request s)) with (deliver r1).
    unfold r1. change (Page.username s) with (js "alice") in H.
    change (Page.password s) with (js "correct-pw") in H.
    rewrite H. reflexivity.
  - intros header st hs b Hc H.
    change (net Page.me_request)
      with (deliver (r2 (cookie_pair <$> set_cookie r1))).
    unfold r1. change (Page.username s) with (js "alice") in Hc.
    change (Page.password s) with (js "correct-pw") in Hc.
    rewrite Hc. cbn [fmap option_fmap option_map]. unfold r2.
    rewrite H. reflexivity.
  - split; [exact H1|exact H2].
Defined.
